(** * The port finite state machine of the TileDB task-graph library

    A shallow embedding of
    [experimental/tiledb/common/dag/state_machine/fsm.h]: the state, event
    and action alphabets, the three transition tables of the two-stage and
    of the three-stage machine, the stringification helpers, and the
    [event] driver of [PortFiniteStateMachine], followed by the properties
    of the tables and of the driver. *)

From Stdlib Require Import String List ZArith Bool Lia.
Import ListNotations.
Local Open Scope string_scope.

(** ** Stage counts *)

(** [stages<num>]; [two_stage = stages<2>], [three_stage = stages<3>]. *)
Inductive enumerator : Type := two_stage | three_stage.

Definition num_stages_v (en : enumerator) : nat :=
  match en with two_stage => 2 | three_stage => 3 end.

(** ** Alphabets *)

(** [PortState<two_stage>]: the anonymous enum, in declaration order. *)
Module PortState2.
Inductive t : Type := st_00 | st_01 | st_10 | st_11 | error | done.

Definition to_index (x : t) : nat :=
  match x with
  | st_00 => 0 | st_01 => 1 | st_10 => 2 | st_11 => 3
  | error => 4 | done => 5
  end.

Definition N_ : nat := 2.
End PortState2.

(** [PortState<three_stage>]. *)
Module PortState3.
Inductive t : Type :=
| st_000 | st_001 | st_010 | st_011 | st_100 | st_101 | st_110 | st_111
| error | done.

Definition to_index (x : t) : nat :=
  match x with
  | st_000 => 0 | st_001 => 1 | st_010 => 2 | st_011 => 3
  | st_100 => 4 | st_101 => 5 | st_110 => 6 | st_111 => 7
  | error => 8 | done => 9
  end.

Definition N_ : nat := 3.
End PortState3.

(** [enum class PortEvent : unsigned short]. *)
Module PortEvent.
Inductive t : Type :=
| source_fill | source_push | sink_drain | sink_pull | shutdown.

Definition to_index (x : t) : nat :=
  match x with
  | source_fill => 0 | source_push => 1 | sink_drain => 2
  | sink_pull => 3 | shutdown => 4
  end.

Definition eqb (a b : t) : bool := Nat.eqb (to_index a) (to_index b).
End PortEvent.

(** [enum class PortAction : unsigned short]. *)
Module PortAction.
Inductive t : Type :=
| none | ac_return | source_move | sink_move
| notify_source | notify_sink | source_wait | sink_wait
| error.

Definition to_index (x : t) : nat :=
  match x with
  | none => 0 | ac_return => 1 | source_move => 2 | sink_move => 3
  | notify_source => 4 | notify_sink => 5 | source_wait => 6
  | sink_wait => 7 | error => 8
  end.
End PortAction.

(** [state_t<enumerator>]: the enum type selected by the stage count. *)
Definition state_t (en : enumerator) : Type :=
  match en with
  | two_stage => PortState2.t
  | three_stage => PortState3.t
  end.

Definition to_index {en : enumerator} : state_t en -> nat :=
  match en with
  | two_stage => PortState2.to_index
  | three_stage => PortState3.to_index
  end.

(** [num_states<enumerator> = PortState<enumerator>::N_]: the second
    template argument of the tables. *)
Definition num_states (en : enumerator) : nat :=
  match en with
  | two_stage => PortState2.N_
  | three_stage => PortState3.N_
  end.

(** [port_state_t<enumerator>::error] and [::done]. *)
Definition st_error (en : enumerator) : state_t en :=
  match en with
  | two_stage => PortState2.error
  | three_stage => PortState3.error
  end.

Definition st_done (en : enumerator) : state_t en :=
  match en with
  | two_stage => PortState2.done
  | three_stage => PortState3.done
  end.

(** [static_cast<state_t<enumerator>>(0)], the constructor's initial state. *)
Definition st_zero (en : enumerator) : state_t en :=
  match en with
  | two_stage => PortState2.st_00
  | three_stage => PortState3.st_000
  end.

Definition state_eqb {en : enumerator} (a b : state_t en) : bool :=
  Nat.eqb (to_index a) (to_index b).

(** [n_states<PortState> = to_index(PortState::done) + 1],
    [n_events = to_index(PortEvent::shutdown) + 1],
    [n_actions = to_index(PortAction::error) + 1]. *)
Definition n_states (en : enumerator) : nat := to_index (st_done en) + 1.
Definition n_events : nat := PortEvent.to_index PortEvent.shutdown + 1.
Definition n_actions : nat := PortAction.to_index PortAction.error + 1.

(** ** Tables

    The tables are two-dimensional arrays, [table[state][event]]; they are
    kept as lists of rows, and a subscript pair outside the array bounds
    has no value. *)

Definition index2 {A : Type} (table : list (list A)) (i j : nat) : option A :=
  match nth_error table i with
  | Some row => nth_error row j
  | None => None
  end.

Module Tables2.
Import PortState2 PortAction.

Definition transition_table : list (list PortState2.t) :=
  (*               source_fill  source_push  sink_drain  sink_pull  shutdown *)
  [ (* st_00 *) [ st_10; st_00; PortState2.error; st_00; PortState2.error ];
    (* st_01 *) [ st_11; st_01; st_00;            st_01; PortState2.error ];
    (* st_10 *) [ PortState2.error; st_01; PortState2.error; st_01; PortState2.error ];
    (* st_11 *) [ PortState2.error; st_11; st_10; st_11; PortState2.error ];
    (* error *) [ PortState2.error; PortState2.error; PortState2.error;
                  PortState2.error; PortState2.error ];
    (* done  *) [ PortState2.error; PortState2.error; PortState2.error;
                  PortState2.error; PortState2.error ] ].

Definition exit_table : list (list PortAction.t) :=
  [ (* st_00 *) [ none; none;        none; sink_wait; none ];
    (* st_01 *) [ none; none;        none; none;      none ];
    (* st_10 *) [ none; source_move; none; sink_move; none ];
    (* st_11 *) [ none; source_wait; none; none;      none ];
    (* error *) [ none; none;        none; none;      none ];
    (* done  *) [ none; none;        none; none;      none ] ].

Definition entry_table : list (list PortAction.t) :=
  [ (* st_00 *) [ none;        none;        notify_source; none;      none ];
    (* st_01 *) [ none;        none;        none;          none;      none ];
    (* st_10 *) [ notify_sink; source_move; notify_source; sink_move; none ];
    (* st_11 *) [ notify_sink; none;        none;          none;      none ];
    (* error *) [ none;        none;        none;          none;      none ];
    (* done  *) [ none;        none;        none;          none;      none ] ].
End Tables2.

Module Tables3.
Import PortState3 PortAction.

Definition transition_table : list (list PortState3.t) :=
  [ (* st_000 *) [ st_100; st_000; PortState3.error; st_000; PortState3.error ];
    (* st_001 *) [ st_101; st_001; st_000;           st_001; PortState3.error ];
    (* st_010 *) [ st_110; st_001; PortState3.error; st_001; PortState3.error ];
    (* st_011 *) [ st_111; st_011; st_010;           st_011; PortState3.error ];
    (* st_100 *) [ PortState3.error; st_001; PortState3.error; st_001; PortState3.error ];
    (* st_101 *) [ PortState3.error; st_011; st_100;           st_011; PortState3.error ];
    (* st_110 *) [ PortState3.error; st_011; PortState3.error; st_011; PortState3.error ];
    (* st_111 *) [ PortState3.error; st_111; st_110;           st_111; PortState3.error ];
    (* error  *) [ PortState3.error; PortState3.error; PortState3.error;
                   PortState3.error; PortState3.error ];
    (* done   *) [ PortState3.error; PortState3.error; PortState3.error;
                   PortState3.error; PortState3.error ] ].

Definition exit_table : list (list PortAction.t) :=
  [ (* st_000 *) [ none; none;        none; sink_wait; none ];
    (* st_001 *) [ none; none;        none; none;      none ];
    (* st_010 *) [ none; source_move; none; sink_move; none ];
    (* st_011 *) [ none; none;        none; none;      none ];
    (* st_100 *) [ none; source_move; none; sink_move; none ];
    (* st_101 *) [ none; source_move; none; sink_move; none ];
    (* st_110 *) [ none; source_move; none; sink_move; none ];
    (* st_111 *) [ none; source_wait; none; none;      none ];
    (* error  *) [ none; none;        none; none;      none ];
    (* done   *) [ none; none;        none; none;      none ] ].

Definition entry_table : list (list PortAction.t) :=
  [ (* st_000 *) [ none;        none;        notify_source; none;      none ];
    (* st_001 *) [ none;        none;        none;          none;      none ];
    (* st_010 *) [ none;        source_move; notify_source; sink_move; none ];
    (* st_011 *) [ none;        none;        none;          none;      none ];
    (* st_100 *) [ notify_sink; source_move; notify_source; sink_move; none ];
    (* st_101 *) [ notify_sink; source_move; none;          sink_move; none ];
    (* st_110 *) [ notify_sink; source_move; notify_source; sink_move; none ];
    (* st_111 *) [ notify_sink; none;        none;          none;      none ];
    (* error  *) [ none;        none;        none;          none;      none ];
    (* done   *) [ none;        none;        none;          none;      none ] ].
End Tables3.

(** [transition_table<port_state, num_states<enumerator>>] and its two
    companions, as the driver names them. *)
Definition transition_table (en : enumerator) : list (list (state_t en)) :=
  match en with
  | two_stage => Tables2.transition_table
  | three_stage => Tables3.transition_table
  end.

Definition exit_table (en : enumerator) : list (list PortAction.t) :=
  match en with
  | two_stage => Tables2.exit_table
  | three_stage => Tables3.exit_table
  end.

Definition entry_table (en : enumerator) : list (list PortAction.t) :=
  match en with
  | two_stage => Tables2.entry_table
  | three_stage => Tables3.entry_table
  end.

(** ** Stringification helpers *)

(** The template argument a [port_state_strings<...>] variable is named
    with: a stage-count tag ([two_stage], [three_stage]) or the struct
    [PortState<enumerator>]. *)
Inductive strings_argument : Type :=
| arg_stages (en : enumerator)
| arg_PortState (en : enumerator).

(** The variable template [port_state_strings]: explicitly specialised for
    [two_stage] and for [three_stage]; every other argument instantiates
    the primary template, a default-constructed (empty) vector. *)
Definition port_state_strings (a : strings_argument) : list string :=
  match a with
  | arg_stages two_stage =>
      [ "st_00"; "st_01"; "st_10"; "st_11"; "error"; "done" ]
  | arg_stages three_stage =>
      [ "st_000"; "st_001"; "st_010"; "st_011";
        "st_100"; "st_101"; "st_110"; "st_111"; "error"; "done" ]
  | arg_PortState _ => []
  end.

Definition event_strings : list string :=
  [ "source_fill"; "source_push"; "sink_drain"; "sink_pull"; "shutdown" ].

Definition action_strings : list string :=
  [ "none"; "ac_return"; "source_move"; "sink_move";
    "notify_source"; "notify_sink"; "source_wait"; "sink_wait"; "error" ].

(** [vector::operator[]]: a subscript that is not below [size()] has no
    defined result. *)
Definition subscript (v : list string) (i : nat) : option string :=
  nth_error v i.

(** [str(three_port_enum_type)] subscripts
    [port_state_strings<PortState<three_stage>>], and
    [str(two_port_enum_type)] subscripts [port_state_strings<two_stage>]. *)
Definition str_state {en : enumerator} : state_t en -> option string :=
  match en with
  | three_stage => fun st =>
      subscript (port_state_strings (arg_PortState three_stage))
                (PortState3.to_index st)
  | two_stage => fun st =>
      subscript (port_state_strings (arg_stages two_stage))
                (PortState2.to_index st)
  end.

Definition str_event (ev : PortEvent.t) : option string :=
  subscript event_strings (PortEvent.to_index ev).

Definition str_action (ac : PortAction.t) : option string :=
  subscript action_strings (PortAction.to_index ac).

(** ** Outcomes of running driver code

    A statement sequence either falls through to the next statement,
    executes [return], throws [std::logic_error], or has undefined
    behaviour (a subscript out of bounds). *)
Inductive outcome (W A : Type) : Type :=
| Continue (a : A) (w : W)
| Returned (w : W)
| Thrown (what : string) (w : W)
| Undefined.

Arguments Continue {W A} a w.
Arguments Returned {W A} w.
Arguments Thrown {W A} what w.
Arguments Undefined {W A}.

Definition M (W A : Type) : Type := W -> outcome W A.

Definition ret {W A} (a : A) : M W A := fun w => Continue a w.

Definition bind {W A B} (m : M W A) (k : A -> M W B) : M W B :=
  fun w =>
    match m w with
    | Continue a w' => k a w'
    | Returned w' => Returned w'
    | Thrown s w' => Thrown s w'
    | Undefined => Undefined
    end.

Definition read {W A} (f : W -> A) : M W A := fun w => Continue (f w) w.
Definition update {W} (f : W -> W) : M W unit := fun w => Continue tt (f w).
Definition return_ {W A} : M W A := fun w => Returned w.
Definition throw_logic_error {W A} (what : string) : M W A :=
  fun w => Thrown what w.
Definition defined {W A} (o : option A) : M W A :=
  fun w => match o with Some a => Continue a w | None => Undefined end.
Definition when {W} (b : bool) (m : M W unit) : M W unit :=
  if b then m else ret tt.

(** The boundary of a [void] member function: its [return] statement ends
    the call, and the caller goes on. *)
Definition call {W} (body : M W unit) : M W unit :=
  fun w =>
    match body w with
    | Returned w' => Continue tt w'
    | o => o
    end.

Declare Scope fsm_scope.
Delimit Scope fsm_scope with fsm.
Notation "x <- m ;; k" := (bind m (fun x => k))
  (at level 61, m at next level, right associativity) : fsm_scope.
Notation "m ;; k" := (bind m (fun _ => k))
  (at level 61, right associativity) : fsm_scope.

(** [std::atomic<int>]: increments wrap around in two's complement. *)
Definition wrap_int (z : Z) : Z := ((z + 2 ^ 31) mod 2 ^ 32 - 2 ^ 31)%Z.

(** One [std::cout << lead << event_counter++ << text << std::endl]. *)
Record line : Type := Line { lead : string; number : Z; text : string }.

(** The string ["\n"]. *)
Definition newline : string := String (Ascii.ascii_of_nat 10) EmptyString.

(** [msg != ""]. *)
Definition nonempty (msg : string) : bool :=
  match msg with EmptyString => false | String _ _ => true end.

Definition obind {A B} (o : option A) (k : A -> option B) : option B :=
  match o with Some a => k a | None => None end.

(** ** The driver: [PortFiniteStateMachine<Policy, enumerator>] *)

Section Driver.
Local Open Scope fsm_scope.

Variable en : enumerator.

(** The data members the policy class adds to the machine it derives
    from. *)
Variable PS : Type.

(** The object a member function runs on, together with the two pieces
    of process state the driver touches: [state_], [next_state_],
    [debug_]; the static [event_counter]; what was written to
    [std::cout]; the policy's own members. *)
Record fsm : Type := Fsm {
  state_ : state_t en;
  next_state_ : state_t en;
  debug_ : bool;
  event_counter : Z;
  cout : list line;
  policy_members : PS
}.

Definition with_state (s : state_t en) (w : fsm) : fsm :=
  Fsm s (next_state_ w) (debug_ w) (event_counter w) (cout w)
      (policy_members w).

Definition with_next_state (s : state_t en) (w : fsm) : fsm :=
  Fsm (state_ w) s (debug_ w) (event_counter w) (cout w)
      (policy_members w).

Definition with_debug (b : bool) (w : fsm) : fsm :=
  Fsm (state_ w) (next_state_ w) b (event_counter w) (cout w)
      (policy_members w).

(** The default constructor initialises [state_] to the enumerator of
    value 0 and [debug_] to [false]; [next_state_] is left as it is
    found. *)
Definition PortFiniteStateMachine (indeterminate : state_t en)
    (counter : Z) (out : list line) (members : PS) : fsm :=
  Fsm (st_zero en) indeterminate false counter out members.

(** [state()], [next_state()], [set_state], [set_next_state],
    [enable_debug], [disable_debug], [debug_enabled]. *)
Definition state (w : fsm) : state_t en := state_ w.
Definition next_state (w : fsm) : state_t en := next_state_ w.
Definition set_state (s : state_t en) : M fsm (state_t en) :=
  update (with_state s) ;; read state_.
Definition set_next_state (s : state_t en) : M fsm (state_t en) :=
  update (with_next_state s) ;; read next_state_.
Definition enable_debug : M fsm unit := update (with_debug true).
Definition disable_debug : M fsm unit := update (with_debug false).
Definition debug_enabled (w : fsm) : bool := debug_ w.

(** The action policy: the seven member functions the driver calls
    through [static_cast<Policy*>(this)].  Each receives the held lock
    and the event counter and runs on the machine object itself, so it
    is a transformer of the whole object; a callback is taken to come
    back to the driver. *)
Record Policy : Type := {
  on_ac_return : fsm -> fsm;
  on_source_move : fsm -> fsm;
  on_sink_move : fsm -> fsm;
  on_source_wait : fsm -> fsm;
  on_sink_wait : fsm -> fsm;
  notify_source : fsm -> fsm;
  notify_sink : fsm -> fsm
}.

(** A policy whose callbacks all do nothing. *)
Definition pass_through : Policy :=
  {| on_ac_return := fun w => w;
     on_source_move := fun w => w;
     on_sink_move := fun w => w;
     on_source_wait := fun w => w;
     on_sink_wait := fun w => w;
     notify_source := fun w => w;
     notify_sink := fun w => w |}.

Variable P : Policy.

(** [std::cout << lead << event_counter++ << text << std::endl]: the
    counter is bumped and the text, when its operands have a value,
    is written. *)
Definition print (ld : string) (txt : option string) : M fsm unit :=
  n <- read event_counter ;;
  update (fun w => Fsm (state_ w) (next_state_ w) (debug_ w)
                       (wrap_int (n + 1)) (cout w) (policy_members w)) ;;
  t <- defined txt ;;
  update (fun w => Fsm (state_ w) (next_state_ w) (debug_ w)
                       (event_counter w) (cout w ++ [Line ld n t])
                       (policy_members w)).

(** [label + msg + " " + str(event) + ": " + str(src) + " (" +
    str(exit_action) + ") -> (" + str(entry_action)] followed by
    [") " + str(dst)]. *)
Definition transition_text (label msg : string) (ev : PortEvent.t)
    (src : state_t en) (exit_action entry_action : PortAction.t)
    (dst : state_t en) : option string :=
  obind (str_event ev) (fun e =>
  obind (str_state src) (fun s =>
  obind (str_action exit_action) (fun x =>
  obind (str_action entry_action) (fun n =>
  obind (str_state dst) (fun d =>
    Some (label ++ msg ++ " " ++ e ++ ": " ++ s ++ " (" ++ x ++
          ") -> (" ++ n ++ ") " ++ d)))))).

(** ["      " + msg + what], printed before a callback when a message
    was given. *)
Definition about_to (msg what : string) : M fsm unit :=
  when (nonempty msg) (print "" (Some ("      " ++ msg ++ what))).

(** ["Unexpected <phase> action: " + str(action) + ": " + str(state_) +
    " -> " + str(next_state_)], the operand of the [throw]. *)
Definition unexpected_text (phase : string) (ac : PortAction.t)
    (w : fsm) : option string :=
  obind (str_action ac) (fun a =>
  obind (str_state (state_ w)) (fun s =>
  obind (str_state (next_state_ w)) (fun n =>
    Some ("Unexpected " ++ phase ++ " action: " ++ a ++ ": " ++ s ++
          " -> " ++ n)))).

(** The [switch (exit_action)] statement. *)
Definition exit_actions (exit_action : PortAction.t) (msg : string)
    : M fsm unit :=
  match exit_action with
  | PortAction.none => ret tt
  | PortAction.ac_return =>
      about_to msg " exit about to ac_return" ;;
      update (on_ac_return P) ;;
      return_
  | PortAction.source_move =>
      about_to msg " exit about to source_move" ;;
      update (on_source_move P)
  | PortAction.sink_move =>
      about_to msg " exit about to sink_move" ;;
      update (on_sink_move P)
  | PortAction.source_wait =>
      about_to msg " exit about to source_wait" ;;
      update (on_source_wait P)
  | PortAction.sink_wait =>
      about_to msg " exit about to sink_wait" ;;
      update (on_sink_wait P)
  | PortAction.notify_source =>
      about_to msg " exit about to notify source" ;;
      update (notify_source P)
  | PortAction.notify_sink =>
      about_to msg " exit about to notify sink" ;;
      update (notify_sink P)
  | PortAction.error =>
      w <- read (fun w => w) ;;
      what <- defined (unexpected_text "exit" exit_action w) ;;
      throw_logic_error what
  end.

(** The state adjustment that follows a move callback in the entry
    phase: [if constexpr] on the stage count, then for three stages a
    [switch (state_)]. *)
Definition state_after_move : state_t en -> state_t en :=
  match en with
  | two_stage => fun _ => PortState2.st_01
  | three_stage => fun s =>
      match s with
      | PortState3.st_010 | PortState3.st_100 => PortState3.st_001
      | PortState3.st_110 | PortState3.st_101 => PortState3.st_011
      | _ => s
      end
  end.

(** The [switch (entry_action)] statement. *)
Definition entry_actions (entry_action : PortAction.t) (msg : string)
    : M fsm unit :=
  match entry_action with
  | PortAction.none => ret tt
  | PortAction.ac_return =>
      about_to msg " entry about to ac_return" ;;
      update (on_ac_return P) ;;
      return_
  | PortAction.source_move =>
      about_to msg " entry about to source_move" ;;
      update (on_source_move P) ;;
      update (fun w => with_state (state_after_move (state_ w)) w)
  | PortAction.sink_move =>
      about_to msg " entry about to sink_move" ;;
      update (on_sink_move P) ;;
      update (fun w => with_state (state_after_move (state_ w)) w)
  | PortAction.source_wait =>
      about_to msg " entry about to source_wait" ;;
      update (on_source_wait P)
  | PortAction.sink_wait =>
      about_to msg " entry about to sink_wait" ;;
      update (on_sink_wait P)
  | PortAction.notify_source =>
      about_to msg " entry about to notify source" ;;
      update (notify_source P)
  | PortAction.notify_sink =>
      about_to msg " entry about to notify sink" ;;
      update (notify_sink P)
  | PortAction.error =>
      w <- read (fun w => w) ;;
      what <- defined (unexpected_text "entry" entry_action w) ;;
      throw_logic_error what
  end.

(** The second half of [event]: the assignment [state_ = next_state_],
    the entry action read again from the table, and the entry
    [switch] between its two trace lines.  [old_state] and
    [exit_action] are the locals set in the first half. *)
Definition entry_phase (ev : PortEvent.t) (msg : string)
    (old_state : state_t en) (exit_action : PortAction.t) : M fsm unit :=
  update (fun w => with_state (next_state_ w) w) ;;
  nx <- read next_state_ ;;
  entry_action <- defined (index2 (entry_table en) (to_index nx)
                                  (PortEvent.to_index ev)) ;;
  verbose <- read (fun w => nonempty msg || debug_ w) ;;
  when verbose
    (w <- read (fun w => w) ;;
     print ""
       (transition_text " Pre entry event: " msg ev old_state
          exit_action entry_action (state_ w))) ;;
  entry_actions entry_action msg ;;
  verbose <- read (fun w => nonempty msg || debug_ w) ;;
  when verbose
    (w <- read (fun w => w) ;;
     print ""
       (transition_text " Post entry event: " msg ev (state_ w)
          exit_action entry_action (next_state_ w))).

(** The body of [event(PortEvent event, const std::string msg)], run
    with the mutex held from the first statement to the end of the
    call. *)
Definition event_body (ev : PortEvent.t) (msg : string) : M fsm unit :=
  st <- read state_ ;;
  nx <- defined (index2 (transition_table en) (to_index st)
                        (PortEvent.to_index ev)) ;;
  update (with_next_state nx) ;;
  exit_action <- defined (index2 (exit_table en) (to_index st)
                                 (PortEvent.to_index ev)) ;;
  entry_action <- defined (index2 (entry_table en) (to_index nx)
                                  (PortEvent.to_index ev)) ;;
  let old_state := st in
  verbose <- read (fun w => nonempty msg || debug_ w) ;;
  when verbose
    (print newline
       (transition_text " On event start: " msg ev st exit_action
          entry_action nx)) ;;
  match ev with
  | PortEvent.shutdown => return_
  | _ =>
    when (state_eqb nx (st_error en))
      (print newline
         (transition_text " ERROR On event start: " msg ev st exit_action
            entry_action nx)) ;;
    verbose <- read (fun w => nonempty msg || debug_ w) ;;
    when verbose
      (print ""
         (transition_text " Pre exit event: " msg ev st exit_action
            entry_action nx)) ;;
    exit_actions exit_action msg ;;
    verbose <- read (fun w => nonempty msg || debug_ w) ;;
    when verbose
      (when (nonempty msg)
         (w <- read (fun w => w) ;;
          print ""
            (transition_text " Post exit: " msg ev (state_ w) exit_action
               entry_action (next_state_ w)))) ;;
    entry_phase ev msg old_state exit_action
  end.

(** One call of [event]. *)
Definition event (ev : PortEvent.t) (msg : string) : M fsm unit :=
  call (event_body ev msg).

(** The public wrappers. *)
Definition do_fill (msg : string) : M fsm unit :=
  call (event PortEvent.source_fill msg).
Definition do_push (msg : string) : M fsm unit :=
  call (event PortEvent.source_push msg).
Definition do_pull (msg : string) : M fsm unit :=
  call (event PortEvent.sink_pull msg).
Definition do_drain (msg : string) : M fsm unit :=
  call (event PortEvent.sink_drain msg).

(** A sequence of [event] calls, each with its message. *)
Fixpoint run (evs : list (PortEvent.t * string)) : M fsm unit :=
  match evs with
  | [] => ret tt
  | (ev, msg) :: rest => event ev msg ;; run rest
  end.

End Driver.

Arguments Fsm {en PS}.
Arguments state_ {en PS}.
Arguments next_state_ {en PS}.
Arguments debug_ {en PS}.
Arguments event_counter {en PS}.
Arguments cout {en PS}.
Arguments policy_members {en PS}.
Arguments with_state {en PS}.
Arguments with_next_state {en PS}.
Arguments with_debug {en PS}.
Arguments state {en PS}.
Arguments next_state {en PS}.
Arguments set_state {en PS}.
Arguments set_next_state {en PS}.
Arguments on_ac_return {en PS}.
Arguments on_source_move {en PS}.
Arguments on_sink_move {en PS}.
Arguments on_source_wait {en PS}.
Arguments on_sink_wait {en PS}.
Arguments notify_source {en PS}.
Arguments notify_sink {en PS}.
Arguments pass_through {en PS}.
Arguments print {en PS}.
Arguments about_to {en PS}.
Arguments unexpected_text {en PS}.
Arguments exit_actions {en PS}.
Arguments entry_actions {en PS}.
Arguments entry_phase {en PS}.
Arguments event_body {en PS}.
Arguments event {en PS}.
Arguments do_fill {en PS}.
Arguments do_push {en PS}.
Arguments do_pull {en PS}.
Arguments do_drain {en PS}.
Arguments run {en PS}.

(** ** The tables as the specification prints them

    These definitions follow the wording of the specification (section
    4.1), cell by cell, and are compared below with the arrays of the
    source. *)

Module SpecTables.

(** Two-stage next-state table. *)
Definition next2 (s : PortState2.t) (e : PortEvent.t) : PortState2.t :=
  match s, e with
  | PortState2.st_00, PortEvent.source_fill => PortState2.st_10
  | PortState2.st_00, PortEvent.source_push => PortState2.st_00
  | PortState2.st_00, PortEvent.sink_drain => PortState2.error
  | PortState2.st_00, PortEvent.sink_pull => PortState2.st_00
  | PortState2.st_00, PortEvent.shutdown => PortState2.error
  | PortState2.st_01, PortEvent.source_fill => PortState2.st_11
  | PortState2.st_01, PortEvent.source_push => PortState2.st_01
  | PortState2.st_01, PortEvent.sink_drain => PortState2.st_00
  | PortState2.st_01, PortEvent.sink_pull => PortState2.st_01
  | PortState2.st_01, PortEvent.shutdown => PortState2.error
  | PortState2.st_10, PortEvent.source_fill => PortState2.error
  | PortState2.st_10, PortEvent.source_push => PortState2.st_01
  | PortState2.st_10, PortEvent.sink_drain => PortState2.error
  | PortState2.st_10, PortEvent.sink_pull => PortState2.st_01
  | PortState2.st_10, PortEvent.shutdown => PortState2.error
  | PortState2.st_11, PortEvent.source_fill => PortState2.error
  | PortState2.st_11, PortEvent.source_push => PortState2.st_11
  | PortState2.st_11, PortEvent.sink_drain => PortState2.st_10
  | PortState2.st_11, PortEvent.sink_pull => PortState2.st_11
  | PortState2.st_11, PortEvent.shutdown => PortState2.error
  | PortState2.error, _ => PortState2.error
  | PortState2.done, _ => PortState2.error
  end.

(** Two-stage exit table: all [none] except four cells. *)
Definition exit2 (s : PortState2.t) (e : PortEvent.t) : PortAction.t :=
  match s, e with
  | PortState2.st_00, PortEvent.sink_pull => PortAction.sink_wait
  | PortState2.st_10, PortEvent.source_push => PortAction.source_move
  | PortState2.st_10, PortEvent.sink_pull => PortAction.sink_move
  | PortState2.st_11, PortEvent.source_push => PortAction.source_wait
  | _, _ => PortAction.none
  end.

(** Two-stage entry table: all [none] except six cells. *)
Definition entry2 (s : PortState2.t) (e : PortEvent.t) : PortAction.t :=
  match s, e with
  | PortState2.st_00, PortEvent.sink_drain => PortAction.notify_source
  | PortState2.st_10, PortEvent.source_fill => PortAction.notify_sink
  | PortState2.st_10, PortEvent.source_push => PortAction.source_move
  | PortState2.st_10, PortEvent.sink_drain => PortAction.notify_source
  | PortState2.st_10, PortEvent.sink_pull => PortAction.sink_move
  | PortState2.st_11, PortEvent.source_fill => PortAction.notify_sink
  | _, _ => PortAction.none
  end.

(** Three-stage next-state table. *)
Definition next3 (s : PortState3.t) (e : PortEvent.t) : PortState3.t :=
  match s, e with
  | PortState3.st_000, PortEvent.source_fill => PortState3.st_100
  | PortState3.st_000, PortEvent.source_push => PortState3.st_000
  | PortState3.st_000, PortEvent.sink_drain => PortState3.error
  | PortState3.st_000, PortEvent.sink_pull => PortState3.st_000
  | PortState3.st_001, PortEvent.source_fill => PortState3.st_101
  | PortState3.st_001, PortEvent.source_push => PortState3.st_001
  | PortState3.st_001, PortEvent.sink_drain => PortState3.st_000
  | PortState3.st_001, PortEvent.sink_pull => PortState3.st_001
  | PortState3.st_010, PortEvent.source_fill => PortState3.st_110
  | PortState3.st_010, PortEvent.source_push => PortState3.st_001
  | PortState3.st_010, PortEvent.sink_drain => PortState3.error
  | PortState3.st_010, PortEvent.sink_pull => PortState3.st_001
  | PortState3.st_011, PortEvent.source_fill => PortState3.st_111
  | PortState3.st_011, PortEvent.source_push => PortState3.st_011
  | PortState3.st_011, PortEvent.sink_drain => PortState3.st_010
  | PortState3.st_011, PortEvent.sink_pull => PortState3.st_011
  | PortState3.st_100, PortEvent.source_fill => PortState3.error
  | PortState3.st_100, PortEvent.source_push => PortState3.st_001
  | PortState3.st_100, PortEvent.sink_drain => PortState3.error
  | PortState3.st_100, PortEvent.sink_pull => PortState3.st_001
  | PortState3.st_101, PortEvent.source_fill => PortState3.error
  | PortState3.st_101, PortEvent.source_push => PortState3.st_011
  | PortState3.st_101, PortEvent.sink_drain => PortState3.st_100
  | PortState3.st_101, PortEvent.sink_pull => PortState3.st_011
  | PortState3.st_110, PortEvent.source_fill => PortState3.error
  | PortState3.st_110, PortEvent.source_push => PortState3.st_011
  | PortState3.st_110, PortEvent.sink_drain => PortState3.error
  | PortState3.st_110, PortEvent.sink_pull => PortState3.st_011
  | PortState3.st_111, PortEvent.source_fill => PortState3.error
  | PortState3.st_111, PortEvent.source_push => PortState3.st_111
  | PortState3.st_111, PortEvent.sink_drain => PortState3.st_110
  | PortState3.st_111, PortEvent.sink_pull => PortState3.st_111
  | _, PortEvent.shutdown => PortState3.error
  | PortState3.error, _ => PortState3.error
  | PortState3.done, _ => PortState3.error
  end.

(** Three-stage exit table, by its non-[none] entries. *)
Definition exit3 (s : PortState3.t) (e : PortEvent.t) : PortAction.t :=
  match e, s with
  | PortEvent.source_push, (PortState3.st_010 | PortState3.st_100
                           | PortState3.st_101 | PortState3.st_110) =>
      PortAction.source_move
  | PortEvent.source_push, PortState3.st_111 => PortAction.source_wait
  | PortEvent.sink_pull, (PortState3.st_010 | PortState3.st_100
                         | PortState3.st_101 | PortState3.st_110) =>
      PortAction.sink_move
  | PortEvent.sink_pull, PortState3.st_000 => PortAction.sink_wait
  | _, _ => PortAction.none
  end.

(** Three-stage entry table, by its non-[none] entries. *)
Definition entry3 (s : PortState3.t) (e : PortEvent.t) : PortAction.t :=
  match e, s with
  | PortEvent.sink_drain, (PortState3.st_000 | PortState3.st_010
                          | PortState3.st_100 | PortState3.st_110) =>
      PortAction.notify_source
  | PortEvent.source_fill, (PortState3.st_100 | PortState3.st_101
                           | PortState3.st_110 | PortState3.st_111) =>
      PortAction.notify_sink
  | PortEvent.source_push, (PortState3.st_010 | PortState3.st_100
                           | PortState3.st_101 | PortState3.st_110) =>
      PortAction.source_move
  | PortEvent.sink_pull, (PortState3.st_010 | PortState3.st_100
                         | PortState3.st_101 | PortState3.st_110) =>
      PortAction.sink_move
  | _, _ => PortAction.none
  end.

Definition next (en : enumerator) : state_t en -> PortEvent.t -> state_t en :=
  match en with two_stage => next2 | three_stage => next3 end.
Definition exit (en : enumerator) : state_t en -> PortEvent.t -> PortAction.t :=
  match en with two_stage => exit2 | three_stage => exit3 end.
Definition entry (en : enumerator) : state_t en -> PortEvent.t -> PortAction.t :=
  match en with two_stage => entry2 | three_stage => entry3 end.

End SpecTables.

(** The cell of a source table for a state and an event, as the driver
    subscripts it. *)
Definition cell {A : Type} {en : enumerator} (table : list (list A))
    (s : state_t en) (e : PortEvent.t) : option A :=
  index2 table (to_index s) (PortEvent.to_index e).

(** The tabulated slot states: every state but the two sentinels. *)
Definition slot_state {en : enumerator} (s : state_t en) : bool :=
  Nat.ltb (to_index s) (to_index (st_error en)).

(** ** Vocabulary of the driver properties *)

(** The object after one line has been written: the counter is bumped and
    the line, stamped with the old counter value, is appended. *)
Definition logged {en : enumerator} {PS : Type} (ld t : string)
    (w : fsm en PS) : fsm en PS :=
  Fsm (state_ w) (next_state_ w) (debug_ w)
      (wrap_int (event_counter w + 1))
      (cout w ++ [Line ld (event_counter w) t]) (policy_members w).

(** The object after the ["about to"] line of a callback, which is written
    only when a message was given. *)
Definition announced {en : enumerator} {PS : Type} (msg what : string)
    (w : fsm en PS) : fsm en PS :=
  if nonempty msg then logged "" ("      " ++ msg ++ what) w else w.

(** The case labels of the two [switch] statements, in source order. *)
Definition handled_actions : list PortAction.t :=
  [ PortAction.none; PortAction.ac_return; PortAction.source_move;
    PortAction.sink_move; PortAction.source_wait; PortAction.sink_wait;
    PortAction.notify_source; PortAction.notify_sink ].

Definition is_move (a : PortAction.t) : bool :=
  match a with
  | PortAction.source_move | PortAction.sink_move => true
  | _ => false
  end.

(** The targets of the adjustment after a move: [st_01], or
    [st_001]/[st_011]. *)
Definition collapsed {en : enumerator} : state_t en -> Prop :=
  match en with
  | two_stage => fun s => s = PortState2.st_01
  | three_stage => fun s => s = PortState3.st_001 \/ s = PortState3.st_011
  end.

(** A callback that does not write [state_]. *)
Definition keeps_state {en : enumerator} {PS : Type}
    (f : fsm en PS -> fsm en PS) : Prop :=
  forall w, state_ (f w) = state_ w.

(** The trace lines of a call can be built: always in the two-stage
    machine, and in the three-stage machine only when none is asked for. *)
Definition traces_defined {en : enumerator} {PS : Type} (msg : string)
    (w : fsm en PS) : Prop :=
  en = two_stage \/ (nonempty msg || debug_ w) = false.

(** A three-stage policy whose [on_source_wait] comes back with
    [next_state_] set to [st_110], as after the sink has pulled while the
    source was waiting; its other callbacks do nothing. *)
Definition woken_by_pull : Policy three_stage unit :=
  {| on_ac_return := fun w => w;
     on_source_move := fun w => w;
     on_sink_move := fun w => w;
     on_source_wait := with_next_state (en := three_stage) PortState3.st_110;
     on_sink_wait := fun w => w;
     notify_source := fun w => w;
     notify_sink := fun w => w |}.

(** The outcome is a raised [std::logic_error]. *)
Definition throws {W A : Type} (o : outcome W A) : Prop :=
  match o with Thrown _ _ => True | _ => False end.

(** A piece of driver code that raises nothing, whatever it runs on. *)
Definition never_throws {W A : Type} (m : M W A) : Prop :=
  forall w, ~ throws (m w).

(** ** Vocabulary of the further properties *)

Arguments debug_enabled {en PS}.
Arguments enable_debug {en PS}.
Arguments disable_debug {en PS}.

(** The slots of a pipe, by the bits of a state's ordinal: bit 0 is the
    sink's slot and bit [num_stages_v en - 1] the source's. *)
Definition occupied {en : enumerator} (s : state_t en) (slot : nat) : bool :=
  Nat.testbit (to_index s) slot.

Definition source_slot (en : enumerator) : nat := num_stages_v en - 1.
Definition sink_slot : nat := 0.

(** The number of items a slot state stands for. *)
Definition items {en : enumerator} (s : state_t en) : nat :=
  length (filter (occupied s) (seq 0 (num_stages_v en))).

Definition is_wait (a : PortAction.t) : bool :=
  match a with
  | PortAction.source_wait | PortAction.sink_wait => true
  | _ => false
  end.

(** What a callback can see of the machine when it is called: which
    callback it is, and [state()] and [next_state()] at that moment. *)
Record observation (en : enumerator) : Type := Observed {
  callback : PortAction.t;
  seen_state : state_t en;
  seen_next_state : state_t en
}.

Arguments Observed {en}.
Arguments callback {en}.
Arguments seen_state {en}.
Arguments seen_next_state {en}.

Definition observe {en : enumerator} (a : PortAction.t)
    (w : fsm en (list (observation en))) : fsm en (list (observation en)) :=
  Fsm (state_ w) (next_state_ w) (debug_ w) (event_counter w) (cout w)
      ((policy_members w ++ [Observed a (state w) (next_state w)])%list).

(** A policy that does nothing but keep a list of what its callbacks
    saw. *)
Definition recorder {en : enumerator} : Policy en (list (observation en)) :=
  {| on_ac_return := observe PortAction.ac_return;
     on_source_move := observe PortAction.source_move;
     on_sink_move := observe PortAction.sink_move;
     on_source_wait := observe PortAction.source_wait;
     on_sink_wait := observe PortAction.sink_wait;
     notify_source := observe PortAction.notify_source;
     notify_sink := observe PortAction.notify_sink |}.

(** The callback an action stands for, if any, seen at the given state
    and next state. *)
Definition observed_call {en : enumerator} (a : PortAction.t)
    (s n : state_t en) : list (observation en) :=
  match a with
  | PortAction.none => []
  | _ => [Observed a s n]
  end.

(** Lines numbered from [c] on, one after the other, ending with the
    counter at [c']. *)
Fixpoint stamped (c : Z) (ls : list line) (c' : Z) : Prop :=
  match ls with
  | [] => c' = c
  | l :: rest => number l = c /\ stamped (wrap_int (c + 1)) rest c'
  end.

Definition count (b : bool) : nat := if b then 1 else 0.

Definition is_none (a : PortAction.t) : bool :=
  match a with PortAction.none => true | _ => false end.

(** A three-stage policy that is woken like [woken_by_pull] and whose
    [on_source_move] calls [set_state] with [st_111]. *)
Definition move_sets_state : Policy three_stage unit :=
  {| on_ac_return := fun w => w;
     on_source_move := with_state (en := three_stage) PortState3.st_111;
     on_sink_move := fun w => w;
     on_source_wait := with_next_state (en := three_stage) PortState3.st_110;
     on_sink_wait := fun w => w;
     notify_source := fun w => w;
     notify_sink := fun w => w |}.

(** The enumerators as the source spells them. *)
Definition event_name (e : PortEvent.t) : string :=
  match e with
  | PortEvent.source_fill => "source_fill"
  | PortEvent.source_push => "source_push"
  | PortEvent.sink_drain => "sink_drain"
  | PortEvent.sink_pull => "sink_pull"
  | PortEvent.shutdown => "shutdown"
  end.

Definition action_name (a : PortAction.t) : string :=
  match a with
  | PortAction.none => "none"
  | PortAction.ac_return => "ac_return"
  | PortAction.source_move => "source_move"
  | PortAction.sink_move => "sink_move"
  | PortAction.notify_source => "notify_source"
  | PortAction.notify_sink => "notify_sink"
  | PortAction.source_wait => "source_wait"
  | PortAction.sink_wait => "sink_wait"
  | PortAction.error => "error"
  end.

Definition state2_name (s : state_t two_stage) : string :=
  match s with
  | PortState2.st_00 => "st_00"
  | PortState2.st_01 => "st_01"
  | PortState2.st_10 => "st_10"
  | PortState2.st_11 => "st_11"
  | PortState2.error => "error"
  | PortState2.done => "done"
  end.

(** * Properties of the tables *)

Ltac by_cases_state s :=
  match type of s with
  | state_t two_stage => change (state_t two_stage) with PortState2.t in s
  | state_t three_stage => change (state_t three_stage) with PortState3.t in s
  | _ => idtac
  end; destruct s.

(** The arrays have [n_states] rows of [n_events] cells. *)
Lemma table_shape (en : enumerator) :
  length (transition_table en) = n_states en /\
  length (exit_table en) = n_states en /\
  length (entry_table en) = n_states en /\
  Forall (fun row => length row = n_events) (transition_table en) /\
  Forall (fun row => length row = n_events) (exit_table en) /\
  Forall (fun row => length row = n_events) (entry_table en).
Proof.
  destruct en; cbn; repeat split; repeat constructor.
Qed.

(** C1. The next-state arrays of both machines hold, for every state and
    every event, the successor the specification tabulates; in
    particular the [error] and [done] rows send every event to [error]
    (P2). *)
Theorem transition_table_as_specified :
  (forall (en : enumerator) (s : state_t en) (e : PortEvent.t),
      cell (transition_table en) s e = Some (SpecTables.next en s e)) /\
  (forall (en : enumerator) (e : PortEvent.t),
      cell (transition_table en) (st_error en) e = Some (st_error en) /\
      cell (transition_table en) (st_done en) e = Some (st_error en)) /\
  cell (en := two_stage) (transition_table two_stage)
       PortState2.st_00 PortEvent.source_fill = Some PortState2.st_10 /\
  cell (en := two_stage) (transition_table two_stage)
       PortState2.st_00 PortEvent.sink_drain = Some PortState2.error /\
  cell (en := three_stage) (transition_table three_stage)
       PortState3.st_101 PortEvent.sink_drain = Some PortState3.st_100.
Proof.
  split; [| split; [| repeat split]].
  - intros en s e; destruct en; by_cases_state s; destruct e; reflexivity.
  - intros en e; destruct en, e; split; reflexivity.
Qed.

(** C2. The exit arrays of both machines are [none] everywhere except at
    the cells the specification lists, where they hold the listed
    action. *)
Theorem exit_table_as_specified :
  forall (en : enumerator) (s : state_t en) (e : PortEvent.t),
    cell (exit_table en) s e = Some (SpecTables.exit en s e).
Proof.
  intros en s e; destruct en; by_cases_state s; destruct e; reflexivity.
Qed.

(** C3. The entry arrays of both machines are [none] everywhere except at
    the cells the specification lists, where they hold the listed
    action. *)
Theorem entry_table_as_specified :
  forall (en : enumerator) (s : state_t en) (e : PortEvent.t),
    cell (entry_table en) s e = Some (SpecTables.entry en s e).
Proof.
  intros en s e; destruct en; by_cases_state s; destruct e; reflexivity.
Qed.

(** * Properties of the driver *)

(** ** Trace lines *)

Lemma print_some {en PS} ld t (w : fsm en PS) :
  print ld (Some t) w = Continue tt (logged ld t w).
Proof. reflexivity. Qed.

Lemma print_none {en PS} ld (w : fsm en PS) : print ld None w = Undefined.
Proof. reflexivity. Qed.

Lemma str_state_three (s : state_t three_stage) : str_state s = None.
Proof. by_cases_state s; reflexivity. Qed.

Lemma str_state_two (s : state_t two_stage) : exists t, str_state s = Some t.
Proof. by_cases_state s; eexists; reflexivity. Qed.

Lemma str_event_some e : exists t, str_event e = Some t.
Proof. destruct e; eexists; reflexivity. Qed.

Lemma str_action_some a : exists t, str_action a = Some t.
Proof. destruct a; eexists; reflexivity. Qed.

Lemma transition_text_three l m e s x n d :
  transition_text three_stage l m e s x n d = None.
Proof.
  unfold transition_text. destruct (str_event_some e) as [t ->].
  unfold obind at 1. now rewrite str_state_three.
Qed.

Lemma transition_text_two l m e s x n d :
  exists t, transition_text two_stage l m e s x n d = Some t.
Proof.
  unfold transition_text.
  destruct (str_event_some e) as [t1 ->], (str_state_two s) as [t2 ->],
    (str_action_some x) as [t3 ->], (str_action_some n) as [t4 ->],
    (str_state_two d) as [t5 ->].
  unfold obind. eexists; reflexivity.
Qed.

(** Running the driver on an object whose fields are known, with the
    texts of the trace lines kept folded. *)
Ltac run_driver :=
  cbv -[transition_text unexpected_text wrap_int Z.add String.append app
        logged].

Ltac run_driver_in H :=
  cbv -[transition_text unexpected_text wrap_int Z.add String.append app
        logged] in H.

Ltac texts :=
  repeat match goal with
  | |- context [transition_text two_stage ?l ?m ?e ?s ?x ?n ?d] =>
      let t := fresh "t" in
      destruct (transition_text_two l m e s x n d) as [t ->]
  | |- context [transition_text three_stage ?l ?m ?e ?s ?x ?n ?d] =>
      rewrite (transition_text_three l m e s x n d)
  end.

Ltac texts_in H :=
  repeat match type of H with
  | context [transition_text two_stage ?l ?m ?e ?s ?x ?n ?d] =>
      let t := fresh "t" in
      destruct (transition_text_two l m e s x n d) as [t ->]
  | context [transition_text three_stage ?l ?m ?e ?s ?x ?n ?d] =>
      rewrite (transition_text_three l m e s x n d) in H
  end.

(** ** One call under the pass-through policy *)

(** In the two-stage machine every call comes back; the successor read
    from the table is left in [next_state_], and is the new state unless
    the event is [shutdown]. *)
Lemma event_pass_through_two {PS} ev msg (w : fsm two_stage PS) :
  exists w',
    event pass_through ev msg w = Continue tt w' /\
    cell (transition_table two_stage) (state_ w) ev = Some (next_state_ w') /\
    state_ w' = match ev with
                | PortEvent.shutdown => state_ w
                | _ => next_state_ w'
                end /\
    debug_ w' = debug_ w /\ policy_members w' = policy_members w.
Proof.
  destruct w as [s n d c o p].
  by_cases_state s; destruct ev, msg, d; run_driver; texts;
    (eexists; split; [reflexivity | repeat split]).
Qed.

(** In the three-stage machine a call that has a line to write has no
    defined outcome; a call that has none commits the successor. *)
Lemma event_pass_through_three {PS} ev msg (w : fsm three_stage PS) :
  event pass_through ev msg w =
    if nonempty msg || debug_ w then Undefined
    else
      match cell (transition_table three_stage) (state_ w) ev with
      | Some nx =>
          match ev with
          | PortEvent.shutdown => Continue tt (with_next_state nx w)
          | _ =>
              if state_eqb nx (st_error three_stage) then Undefined
              else Continue tt (with_state nx (with_next_state nx w))
          end
      | None => Undefined
      end.
Proof.
  destruct w as [s n d c o p].
  by_cases_state s; destruct ev, msg, d; run_driver; texts; reflexivity.
Qed.

(** ** The shutdown event *)

(** Where the trace lines can be built, a [shutdown] call comes back with
    [next_state_] overwritten by the table's [error] and everything the
    policy can see of the machine, the trace apart, as it was. *)
Lemma shutdown_returns {en PS} (P : Policy en PS) msg (w : fsm en PS) :
  traces_defined msg w ->
  exists w',
    event P PortEvent.shutdown msg w = Continue tt w' /\
    state_ w' = state_ w /\ next_state_ w' = st_error en /\
    debug_ w' = debug_ w /\ policy_members w' = policy_members w.
Proof.
  unfold traces_defined. intros H. destruct w as [s n d c o p].
  destruct en; by_cases_state s; destruct msg, d; cbn in H;
    try (destruct H as [H | H]; discriminate H);
    run_driver; texts; (eexists; split; [reflexivity | repeat split]).
Qed.

(** A [shutdown] call that comes back has done just that. *)
Lemma shutdown_returned {en PS} (P : Policy en PS) msg (w w' : fsm en PS) :
  event P PortEvent.shutdown msg w = Continue tt w' ->
  state_ w' = state_ w /\ next_state_ w' = st_error en /\
  debug_ w' = debug_ w /\ policy_members w' = policy_members w.
Proof.
  destruct w as [s n d c o p].
  destruct en; by_cases_state s; destruct msg, d; intros H;
    run_driver_in H; texts_in H; try discriminate H;
    injection H as <-; repeat split.
Qed.

(** C5. In the three-stage machine a [shutdown] call that is given a
    message does not reach its [return]: the line written on event start
    needs [str(state_)], which subscripts an empty vector.  (With no line
    to write, and in the two-stage machine with any message, the call
    returns at once with [state_] as it was: [shutdown_returns].) *)
Theorem shutdown_with_message_three_stage :
  forall (PS : Type) (P : Policy three_stage PS) (c : Ascii.ascii)
         (m : string) (w : fsm three_stage PS),
    event P PortEvent.shutdown (String c m) w = Undefined.
Proof.
  intros PS P c m w. destruct w as [s n d co o p].
  by_cases_state s; run_driver; texts; reflexivity.
Qed.

(** C10. A [shutdown] call assigns [next_state_] from the shutdown column
    of the table, which holds [error] in every row, before it returns:
    where the call comes back (always in the two-stage machine, and in
    the three-stage machine when it has no line to write) [next_state()]
    is [error] afterwards while [state()] is what it was. *)
Theorem shutdown_overwrites_next_state :
  forall (en : enumerator) (PS : Type) (P : Policy en PS) (msg : string)
         (w : fsm en PS),
    cell (transition_table en) (state w) PortEvent.shutdown
      = Some (st_error en) /\
    (traces_defined msg w ->
     exists w', event P PortEvent.shutdown msg w = Continue tt w' /\
                next_state w' = st_error en /\ state w' = state w) /\
    (forall w', event P PortEvent.shutdown msg w = Continue tt w' ->
                next_state w' = st_error en /\ state w' = state w).
Proof.
  intros en PS P msg w. split; [| split].
  - unfold state. destruct w as [s n d c o p].
    destruct en; by_cases_state s; reflexivity.
  - intros H. destruct (shutdown_returns P msg w H) as (w' & E & Hs & Hn & _).
    exists w'. unfold state, next_state. auto.
  - intros w' E. destruct (shutdown_returned P msg w w' E) as (Hs & Hn & _).
    unfold state, next_state. auto.
Qed.

Lemma shutdown_overwrites_next_state_witness :
  let w := Fsm (en := three_stage) PortState3.st_100 PortState3.st_100
               false 0%Z [] tt in
  exists w', event pass_through PortEvent.shutdown "" w = Continue tt w' /\
             next_state w' = PortState3.error /\
             state w' = PortState3.st_100.
Proof.
  intros w.
  apply (proj1 (proj2 (shutdown_overwrites_next_state
                         three_stage unit pass_through "" w))).
  right. reflexivity.
Defined.

(** ** Sequences of calls under the pass-through policy *)

Lemma transition_table_never_done {en} (s : state_t en) e nx :
  cell (transition_table en) s e = Some nx -> nx <> st_done en.
Proof.
  destruct en; by_cases_state s; destruct e; cbn;
    intros H; injection H as <-; discriminate.
Qed.

Lemma slot_or_sentinel {en} (s : state_t en) :
  slot_state s = true \/ s = st_error en \/ s = st_done en.
Proof. destruct en; by_cases_state s; cbn; auto. Qed.

Lemma slot_not_sentinel {en} (s : state_t en) :
  slot_state s = true <-> (s <> st_error en /\ s <> st_done en).
Proof.
  destruct en; by_cases_state s; cbn; split; intros H;
    try discriminate H; try reflexivity;
    try (split; discriminate); destruct H as [H1 H2]; congruence.
Qed.

(** What a call that comes back has done to [state_]. *)
Lemma pass_through_step {en PS} ev msg (w w' : fsm en PS) :
  event pass_through ev msg w = Continue tt w' ->
  (ev = PortEvent.shutdown /\ state_ w' = state_ w) \/
  (ev <> PortEvent.shutdown /\
   cell (transition_table en) (state_ w) ev = Some (state_ w')).
Proof.
  destruct en.
  - destruct (event_pass_through_two ev msg w) as (w1 & E & Hc & Hs & _).
    rewrite E. intros H; injection H as <-.
    destruct ev; [right | right | right | right | left];
      (split; [discriminate || reflexivity | ]); try exact Hs;
      rewrite Hs; exact Hc.
  - rewrite event_pass_through_three.
    destruct (nonempty msg || debug_ w); [discriminate |].
    destruct (cell (transition_table three_stage) (state_ w) ev) as [nx |] eqn:Hc;
      [| discriminate].
    destruct ev;
      try (destruct (state_eqb nx (st_error three_stage)); [discriminate |];
           intros H; injection H as <-; right; split;
           [discriminate | reflexivity]).
    intros H; injection H as <-. left. split; reflexivity.
Qed.

Lemma pass_through_step_keeps_not_done {en PS} ev msg (w w' : fsm en PS) :
  event pass_through ev msg w = Continue tt w' ->
  state_ w <> st_done en -> state_ w' <> st_done en.
Proof.
  intros H Hd. destruct (pass_through_step ev msg w w' H) as [[_ E] | [_ E]].
  - now rewrite E.
  - exact (transition_table_never_done _ _ _ E).
Qed.

Lemma run_keeps_not_done {en PS} evs (w w' : fsm en PS) :
  run pass_through evs w = Continue tt w' ->
  state_ w <> st_done en -> state_ w' <> st_done en.
Proof.
  revert w. induction evs as [| [ev msg] evs IH]; intros w H Hd.
  - injection H as <-. exact Hd.
  - cbn [run] in H. unfold bind in H.
    destruct (event pass_through ev msg w) as [[] w1 | | |] eqn:E;
      try discriminate H.
    apply (IH w1 H). exact (pass_through_step_keeps_not_done _ _ _ _ E Hd).
Qed.

Lemma run_two_stage_completes {PS} evs (w : fsm two_stage PS) :
  exists w', run pass_through evs w = Continue tt w'.
Proof.
  revert w. induction evs as [| [ev msg] evs IH]; intros w.
  - exists w. reflexivity.
  - destruct (event_pass_through_two ev msg w) as (w1 & E & _).
    destruct (IH w1) as (w' & E'). exists w'.
    cbn [run]. unfold bind. now rewrite E.
Qed.

(** C6 as stated fails: on a freshly constructed two-stage machine with
    the pass-through policy, [event(sink_drain)] comes back with [error]
    stored in [state_]. *)
Lemma drain_on_empty_commits_error :
  let w := PortFiniteStateMachine two_stage unit PortState2.st_00 0%Z [] tt in
  exists w',
    run pass_through [(PortEvent.sink_drain, "")] w = Continue tt w' /\
    state w' = PortState2.error /\
    slot_state (state w') = false.
Proof.
  intros w. eexists. split; [reflexivity | split; reflexivity].
Qed.

(** C6 (as amended). After any sequence of calls on a freshly constructed
    machine with the pass-through policy, the committed state is a slot
    state or [error], never [done]; in the two-stage machine every such
    sequence runs to its end; and a call made in a slot state leaves a
    slot state exactly when the event is [shutdown] or its table entry is
    not [error]. *)
Theorem committed_state_is_slot_or_error :
  (forall (en : enumerator) (PS : Type) (evs : list (PortEvent.t * string))
          (ns : state_t en) (c : Z) (out : list line) (p : PS)
          (w' : fsm en PS),
      run pass_through evs (PortFiniteStateMachine en PS ns c out p)
        = Continue tt w' ->
      (slot_state (state w') = true \/ state w' = st_error en) /\
      state w' <> st_done en) /\
  (forall (PS : Type) (evs : list (PortEvent.t * string))
          (w : fsm two_stage PS),
      exists w', run pass_through evs w = Continue tt w') /\
  (forall (en : enumerator) (PS : Type) (ev : PortEvent.t) (msg : string)
          (w w' : fsm en PS),
      event pass_through ev msg w = Continue tt w' ->
      slot_state (state w) = true ->
      (slot_state (state w') = true <->
       (ev = PortEvent.shutdown \/
        cell (transition_table en) (state w) ev <> Some (st_error en)))).
Proof.
  split; [| split].
  - intros en PS evs ns c out p w' H.
    assert (Hd : state_ w' <> st_done en).
    { apply (run_keeps_not_done evs _ w' H). destruct en; discriminate. }
    unfold state. split; [| exact Hd].
    destruct (slot_or_sentinel (state_ w')) as [Hs | [He | Hx]];
      [left; exact Hs | right; exact He | contradiction].
  - intros PS evs w. apply run_two_stage_completes.
  - intros en PS ev msg w w' H Hslot. unfold state in *.
    destruct (pass_through_step ev msg w w' H) as [[-> E] | [Hne E]].
    + rewrite E. split; auto.
    + rewrite E. rewrite slot_not_sentinel. split.
      * intros [Herr _]. right. intros Heq. injection Heq as Heq. auto.
      * intros [Habs | Hneq]; [contradiction |].
        split; [intros Heq; apply Hneq; now rewrite Heq |].
        exact (transition_table_never_done _ _ _ E).
Qed.

Lemma committed_state_is_slot_or_error_witness :
  exists w' : fsm two_stage unit,
    run pass_through [(PortEvent.sink_drain, "")]
        (PortFiniteStateMachine two_stage unit PortState2.st_00 0%Z [] tt)
      = Continue tt w' /\
    (slot_state (state w') = true \/ state w' = PortState2.error) /\
    state w' <> PortState2.done.
Proof.
  eexists. split; [reflexivity |].
  apply (proj1 committed_state_is_slot_or_error two_stage unit
           [(PortEvent.sink_drain, "")] PortState2.st_00 0%Z [] tt).
  reflexivity.
Defined.

(** ** The canonical two-stage cycle *)

Lemma pass_through_two_to {PS} ev msg (w : fsm two_stage PS) s' :
  ev <> PortEvent.shutdown ->
  cell (transition_table two_stage) (state_ w) ev = Some s' ->
  exists w', call (event pass_through ev msg) w = Continue tt w' /\
             state_ w' = s'.
Proof.
  intros Hne Hc.
  destruct (event_pass_through_two ev msg w) as (w1 & E & Hc1 & Hs & _).
  exists w1. unfold call. rewrite E. split; [reflexivity |].
  rewrite Hc in Hc1. injection Hc1 as ->.
  destruct ev; try exact Hs. contradiction.
Qed.

(** C7. On a freshly constructed two-stage machine with the pass-through
    policy, [do_fill], [do_push], [do_pull], [do_drain] (with any
    messages) all come back, and the states seen after the four calls are
    [st_10], [st_01], [st_01], [st_00]: never [error]. *)
Theorem two_stage_fill_push_pull_drain :
  forall (PS : Type) (ns : state_t two_stage) (c : Z) (out : list line)
         (p : PS) (m1 m2 m3 m4 : string),
  exists w1 w2 w3 w4 : fsm two_stage PS,
    do_fill pass_through m1 (PortFiniteStateMachine two_stage PS ns c out p)
      = Continue tt w1 /\ state w1 = PortState2.st_10 /\
    do_push pass_through m2 w1 = Continue tt w2 /\
    state w2 = PortState2.st_01 /\
    do_pull pass_through m3 w2 = Continue tt w3 /\
    state w3 = PortState2.st_01 /\
    do_drain pass_through m4 w3 = Continue tt w4 /\
    state w4 = PortState2.st_00.
Proof.
  intros PS ns c out p m1 m2 m3 m4. unfold do_fill, do_push, do_pull, do_drain, state.
  destruct (pass_through_two_to PortEvent.source_fill m1
              (PortFiniteStateMachine two_stage PS ns c out p)
              PortState2.st_10) as (w1 & E1 & S1);
    [discriminate | reflexivity |].
  destruct (pass_through_two_to PortEvent.source_push m2 w1 PortState2.st_01)
    as (w2 & E2 & S2); [discriminate | rewrite S1; reflexivity |].
  destruct (pass_through_two_to PortEvent.sink_pull m3 w2 PortState2.st_01)
    as (w3 & E3 & S3); [discriminate | rewrite S2; reflexivity |].
  destruct (pass_through_two_to PortEvent.sink_drain m4 w3 PortState2.st_00)
    as (w4 & E4 & S4); [discriminate | rewrite S3; reflexivity |].
  exists w1, w2, w3, w4. repeat split; assumption.
Qed.

(** ** Transitions into [error] *)

(** C8. On a freshly constructed three-stage machine with the
    pass-through policy, [event(sink_drain)] (next state [error]) has no
    defined outcome, whatever the message: the line that reports the
    transition needs [str(state_)], which subscripts the empty vector
    [port_state_strings<PortState<three_stage>>]. *)
Theorem error_transition_three_stage_undefined :
  forall (PS : Type) (msg : string) (ns : state_t three_stage) (c : Z)
         (out : list line) (p : PS),
    cell (transition_table three_stage) (st_zero three_stage)
         PortEvent.sink_drain = Some (st_error three_stage) /\
    event pass_through PortEvent.sink_drain msg
          (PortFiniteStateMachine three_stage PS ns c out p) = Undefined.
Proof.
  intros PS msg ns c out p. split; [reflexivity |].
  rewrite event_pass_through_three.
  destruct (nonempty msg || debug_ _); reflexivity.
Qed.

(** ** The unknown-action fault *)

Section NeverThrows.
Context {W : Type}.

Lemma never_throws_ret {A} (a : A) : never_throws (W := W) (ret a).
Proof. intros w H. exact H. Qed.

Lemma never_throws_read {A} (f : W -> A) : never_throws (read f).
Proof. intros w H. exact H. Qed.

Lemma never_throws_update (f : W -> W) : never_throws (update f).
Proof. intros w H. exact H. Qed.

Lemma never_throws_return {A} : never_throws (W := W) (A := A) return_.
Proof. intros w H. exact H. Qed.

Lemma never_throws_defined {A} (o : option A) :
  never_throws (W := W) (defined o).
Proof. intros w H. destruct o; exact H. Qed.

Lemma never_throws_bind {A B} (m : M W A) (k : A -> M W B) :
  never_throws m -> (forall a, never_throws (k a)) ->
  never_throws (bind m k).
Proof.
  intros Hm Hk w H. unfold bind in H.
  destruct (m w) as [a w1 | w1 | t w1 |] eqn:E; try exact H.
  - exact (Hk a w1 H).
  - apply (Hm w). rewrite E. exact I.
Qed.

(** The value bound from a lookup is the one the table holds. *)
Lemma never_throws_bind_defined {A B} (o : option A) (k : A -> M W B) :
  (forall a, o = Some a -> never_throws (k a)) ->
  never_throws (bind (defined o) k).
Proof.
  intros Hk w H. unfold bind, defined in H.
  destruct o as [a |]; [| exact H]. exact (Hk a eq_refl w H).
Qed.

Lemma never_throws_when (b : bool) (m : M W unit) :
  never_throws m -> never_throws (when b m).
Proof. intros Hm. destruct b; [exact Hm | apply never_throws_ret]. Qed.

Lemma never_throws_call (m : M W unit) :
  never_throws m -> never_throws (call m).
Proof.
  intros Hm w H. unfold call in H.
  destruct (m w) as [a w1 | w1 | t w1 |] eqn:E; try exact H.
  apply (Hm w). rewrite E. exact I.
Qed.
End NeverThrows.

Create HintDb driver discriminated.
#[local] Hint Resolve never_throws_ret never_throws_read never_throws_update
  never_throws_return never_throws_defined never_throws_when : driver.

Lemma never_throws_print {en PS} ld txt :
  never_throws (print (en := en) (PS := PS) ld txt).
Proof.
  unfold print.
  repeat (apply never_throws_bind; [auto with driver | intros ?]).
  auto with driver.
Qed.

#[local] Hint Resolve never_throws_print : driver.

Lemma never_throws_about_to {en PS} msg what :
  never_throws (about_to (en := en) (PS := PS) msg what).
Proof. unfold about_to. auto with driver. Qed.

#[local] Hint Resolve never_throws_about_to : driver.

Lemma handled_not_error a : In a handled_actions -> a <> PortAction.error.
Proof.
  intros H ->. cbn in H.
  repeat (destruct H as [H | H]; [discriminate H |]). exact H.
Qed.

Lemma unhandled_is_error a : ~ In a handled_actions -> a = PortAction.error.
Proof. destruct a; cbn; intros H; try reflexivity; exfalso; apply H; tauto. Qed.

(** Every subscript pair that is in range of an action table finds one of
    the eight handled actions. *)
Lemma action_tables_handled en i j a :
  index2 (exit_table en) i j = Some a \/ index2 (entry_table en) i j = Some a ->
  In a handled_actions.
Proof.
  intros H. apply Decidable.not_not.
  { destruct a; cbn; [left | left | left | left | left | left | left | left | right];
      try tauto.
    intros H0. repeat (destruct H0 as [H0 | H0]; [discriminate H0 |]). exact H0. }
  intros Hn. apply unhandled_is_error in Hn. subst a.
  destruct en;
    do 11 (try destruct i as [| i]);
    do 6 (try destruct j as [| j]);
    cbn in H; destruct H as [H | H]; discriminate H.
Qed.

Lemma never_throws_exit_actions {en PS} (P : Policy en PS) a msg :
  a <> PortAction.error -> never_throws (exit_actions P a msg).
Proof.
  intros Ha. destruct a; try contradiction; unfold exit_actions;
    repeat (apply never_throws_bind; [auto with driver | intros ?]);
    auto with driver.
Qed.

Lemma never_throws_entry_actions {en PS} (P : Policy en PS) a msg :
  a <> PortAction.error -> never_throws (entry_actions P a msg).
Proof.
  intros Ha. destruct a; try contradiction; unfold entry_actions;
    repeat (apply never_throws_bind; [auto with driver | intros ?]);
    auto with driver.
Qed.

Lemma never_throws_entry_phase {en PS} (P : Policy en PS) ev msg old xa :
  never_throws (entry_phase P ev msg old xa).
Proof.
  unfold entry_phase.
  apply never_throws_bind; [auto with driver | intros _].
  apply never_throws_bind; [auto with driver | intros nx].
  apply never_throws_bind_defined; intros ea Hea.
  apply never_throws_bind; [auto with driver | intros v].
  apply never_throws_bind.
  { apply never_throws_when.
    apply never_throws_bind; [auto with driver | intros ?]. auto with driver. }
  intros _.
  apply never_throws_bind.
  { apply never_throws_entry_actions, handled_not_error.
    eapply action_tables_handled. right. exact Hea. }
  intros _.
  apply never_throws_bind; [auto with driver | intros v'].
  apply never_throws_when.
  apply never_throws_bind; [auto with driver | intros ?]. auto with driver.
Qed.

Lemma never_throws_event {en PS} (P : Policy en PS) ev msg :
  never_throws (event P ev msg).
Proof.
  unfold event. apply never_throws_call. unfold event_body.
  apply never_throws_bind; [auto with driver | intros st].
  apply never_throws_bind_defined; intros nx Hnx.
  apply never_throws_bind; [auto with driver | intros _].
  apply never_throws_bind_defined; intros xa Hxa.
  apply never_throws_bind_defined; intros ea Hea.
  cbv zeta.
  apply never_throws_bind; [auto with driver | intros v].
  apply never_throws_bind; [auto with driver | intros _].
  assert (Hrest : never_throws
    (bind (when (state_eqb nx (st_error en))
             (print newline
                (transition_text en " ERROR On event start: " msg ev st xa ea nx)))
       (fun _ =>
        bind (read (fun w => nonempty msg || debug_ w)) (fun verbose =>
        bind (when verbose
                (print ""
                   (transition_text en " Pre exit event: " msg ev st xa ea nx)))
          (fun _ =>
        bind (exit_actions P xa msg) (fun _ =>
        bind (read (fun w => nonempty msg || debug_ w)) (fun verbose0 =>
        bind (when verbose0
                (when (nonempty msg)
                   (bind (read (fun w => w)) (fun w =>
                    print ""
                      (transition_text en " Post exit: " msg ev (state_ w)
                         xa ea (next_state_ w))))))
          (fun _ => entry_phase P ev msg st xa)))))))).
  { apply never_throws_bind; [auto with driver | intros _].
    apply never_throws_bind; [auto with driver | intros v1].
    apply never_throws_bind; [auto with driver | intros _].
    apply never_throws_bind.
    { apply never_throws_exit_actions, handled_not_error.
      eapply action_tables_handled. left. exact Hxa. }
    intros _.
    apply never_throws_bind; [auto with driver | intros v2].
    apply never_throws_bind.
    { do 2 apply never_throws_when.
      apply never_throws_bind; [auto with driver | intros ?].
      auto with driver. }
    intros _. apply never_throws_entry_phase. }
  destruct ev; auto with driver.
Qed.




(** ** The state after a move in the entry phase *)

(** The states whose entry action is a move, for some event. *)
Lemma entry_move_cells {en} (nx : state_t en) ev a :
  cell (entry_table en) nx ev = Some a -> is_move a = true ->
  collapsed (state_after_move en nx).
Proof.
  destruct en; by_cases_state nx; destruct ev; cbn;
    intros H; injection H as <-; intros Hm; try discriminate Hm;
    auto.
Qed.

(** A call of the second half that comes back after a move has left
    [state_] at the adjustment of what the move callback returned. *)
Lemma entry_phase_move {en PS} (P : Policy en PS) ev msg old xa a
    (w w' : fsm en PS) :
  cell (entry_table en) (next_state_ w) ev = Some a ->
  is_move a = true ->
  entry_phase P ev msg old xa w = Continue tt w' ->
  exists w0,
    state_ w0 = next_state_ w /\
    ((a = PortAction.source_move /\
      state_ w' = state_after_move en (state_ (on_source_move P w0))) \/
     (a = PortAction.sink_move /\
      state_ w' = state_after_move en (state_ (on_sink_move P w0)))).
Proof.
  intros Hc Hm H. unfold entry_phase in H.
  unfold bind at 1 in H. unfold update at 1 in H.
  unfold bind at 1 in H. unfold read at 1 in H.
  unfold bind at 1 in H.
  change (next_state_ (with_state (next_state_ w) w)) with (next_state_ w) in H.
  unfold cell in Hc. rewrite Hc in H. unfold defined at 1 in H.
  unfold bind at 1 in H. unfold read at 1 in H.
  change (debug_ (with_state (next_state_ w) w)) with (debug_ w) in H.
  set (w1 := with_state (next_state_ w) w) in H.
  assert (Hpre : forall k : unit -> M (fsm en PS) unit,
    bind (when (nonempty msg || debug_ w)
            (bind (read (fun w2 => w2)) (fun w2 =>
             print ""
               (transition_text en " Pre entry event: " msg ev old xa a
                  (state_ w2))))) k w1 = Continue tt w' ->
    exists w2, state_ w2 = next_state_ w /\ k tt w2 = Continue tt w').
  { intros k Hk. unfold bind at 1 in Hk.
    destruct (nonempty msg || debug_ w).
    - unfold when, bind, read in Hk.
      destruct (transition_text en " Pre entry event: " msg ev old xa a
                  (state_ w1)) as [t |].
      + rewrite print_some in Hk. exists (logged "" t w1). split; [reflexivity | exact Hk].
      + rewrite print_none in Hk. discriminate Hk.
    - exists w1. split; [reflexivity | exact Hk]. }
  apply Hpre in H. destruct H as (w2 & Hs2 & H). clear Hpre.
  assert (Hpost : forall w3 : fsm en PS,
    bind (read (fun w4 => nonempty msg || debug_ w4)) (fun verbose =>
      when verbose
        (bind (read (fun w4 => w4)) (fun w4 =>
         print ""
           (transition_text en " Post entry event: " msg ev (state_ w4) xa a
              (next_state_ w4))))) w3 = Continue tt w' ->
    state_ w' = state_ w3).
  { intros w3 Hk. unfold bind at 1, read at 1 in Hk.
    destruct (nonempty msg || debug_ w3).
    - unfold when, bind, read in Hk.
      destruct (transition_text en " Post entry event: " msg ev (state_ w3)
                  xa a (next_state_ w3)) as [t |].
      + rewrite print_some in Hk. injection Hk as <-. reflexivity.
      + rewrite print_none in Hk. discriminate Hk.
    - unfold when, ret in Hk. injection Hk as <-. reflexivity. }
  destruct a; try discriminate Hm.
  - exists (announced msg " entry about to source_move" w2). split.
    + unfold announced. destruct (nonempty msg); exact Hs2.
    + left. split; [reflexivity |].
      unfold bind at 1 in H.
      assert (E : entry_actions P PortAction.source_move msg w2 =
        Continue tt
          (with_state
             (state_after_move en
                (state_ (on_source_move P
                           (announced msg " entry about to source_move" w2))))
             (on_source_move P
                (announced msg " entry about to source_move" w2)))).
      { unfold announced. destruct msg; reflexivity. }
      rewrite E in H. apply Hpost in H. exact H.
  - exists (announced msg " entry about to sink_move" w2). split.
    + unfold announced. destruct (nonempty msg); exact Hs2.
    + right. split; [reflexivity |].
      unfold bind at 1 in H.
      assert (E : entry_actions P PortAction.sink_move msg w2 =
        Continue tt
          (with_state
             (state_after_move en
                (state_ (on_sink_move P
                           (announced msg " entry about to sink_move" w2))))
             (on_sink_move P
                (announced msg " entry about to sink_move" w2)))).
      { unfold announced. destruct msg; reflexivity. }
      rewrite E in H. apply Hpost in H. exact H.
Qed.

(** In the two-stage machine the second half comes back whenever its
    entry action is a move, with [state_] at [st_01]. *)
Lemma entry_phase_move_two {PS} (P : Policy two_stage PS) ev msg old xa a
    (w : fsm two_stage PS) :
  cell (entry_table two_stage) (next_state_ w) ev = Some a ->
  is_move a = true ->
  exists w', entry_phase P ev msg old xa w = Continue tt w' /\
             state_ w' = PortState2.st_01.
Proof.
  intros Hc Hm.
  destruct w as [s n d c o p]. destruct P as [f1 f2 f3 f4 f5 f6 f7].
  by_cases_state n; destruct ev; cbn in Hc; injection Hc as <-;
    cbn in Hm; try discriminate Hm; clear Hm;
    destruct msg, d; run_driver; texts;
    match goal with
    | |- context [f2 ?x] =>
        let d' := fresh "d" in
        destruct (f2 x) as [? ? d' ? ? ?]; destruct d'
    | |- context [f3 ?x] =>
        let d' := fresh "d" in
        destruct (f3 x) as [? ? d' ? ? ?]; destruct d'
    end;
    run_driver; texts; (eexists; split; reflexivity).
Qed.




(** The same through a whole call: a three-stage source that pushes at
    [st_111] waits, is woken with [next_state_] at [st_110], and leaves
    the machine at [st_011]. *)
Example push_after_wait_collapses :
  event woken_by_pull PortEvent.source_push ""
    (Fsm (en := three_stage) PortState3.st_111 PortState3.st_000
         false 0%Z [] tt)
  = Continue tt
      (Fsm (en := three_stage) PortState3.st_011 PortState3.st_110
           false 0%Z [] tt).
Proof. reflexivity. Qed.

(** * Further properties of the tables *)

(** X1. The table subscripts the driver computes are inside the arrays:
    for each state and event the three tables have a cell (the entry
    table at the successor too); and [str] of an event, of an action and
    of a two-stage state is inside its vector of names.  ([str] of a
    three-stage state is not: X6.) *)
Theorem driver_subscripts_in_range :
  forall (en : enumerator) (s : state_t en) (e : PortEvent.t),
    (exists nx xa ea ea',
        cell (transition_table en) s e = Some nx /\
        cell (exit_table en) s e = Some xa /\
        cell (entry_table en) s e = Some ea /\
        cell (entry_table en) nx e = Some ea') /\
    (exists t, str_event e = Some t) /\
    (forall a : PortAction.t, exists t, str_action a = Some t) /\
    (forall s2 : state_t two_stage, exists t, str_state s2 = Some t) /\
    to_index s < n_states en /\ PortEvent.to_index e < n_events.
Proof.
  intros en s e. split; [| split; [| split; [| split; [| split]]]].
  - destruct en; by_cases_state s; destruct e;
      do 4 eexists; repeat split; reflexivity.
  - apply str_event_some.
  - apply str_action_some.
  - apply str_state_two.
  - destruct en; by_cases_state s; cbn; lia.
  - destruct e; cbn; lia.
Qed.

(** X2. [str] gives every event, every action and every state of the
    two-stage machine its enumerator's name as the source spells it, and
    tells the values apart: different values have different names. *)
Theorem str_names_distinct :
  (forall e : PortEvent.t, str_event e = Some (event_name e)) /\
  (forall a : PortAction.t, str_action a = Some (action_name a)) /\
  (forall s : state_t two_stage, str_state s = Some (state2_name s)) /\
  (forall a b : PortEvent.t, a <> b -> str_event a <> str_event b) /\
  (forall a b : PortAction.t, a <> b -> str_action a <> str_action b) /\
  (forall a b : state_t two_stage, a <> b -> str_state a <> str_state b).
Proof.
  split; [| split; [| split; [| split; [| split]]]].
  - intros e; destruct e; reflexivity.
  - intros a; destruct a; reflexivity.
  - intros a; by_cases_state a; reflexivity.
  - intros a b; destruct a, b; cbn; intros Hne H;
      try discriminate H; apply Hne; reflexivity.
  - intros a b; destruct a, b; cbn; intros Hne H;
      try discriminate H; apply Hne; reflexivity.
  - intros a b; by_cases_state a; by_cases_state b; cbn; intros Hne H;
      try discriminate H; apply Hne; reflexivity.
Qed.

Lemma str_names_distinct_witness :
  str_action PortAction.source_wait <> str_action PortAction.sink_wait.
Proof.
  apply (proj1 (proj2 (proj2 (proj2 (proj2 str_names_distinct))))).
  discriminate.
Defined.

(** X3. The next-state table conserves items: where the successor is not
    [error], a fill adds one item, a drain removes one, and a push or a
    pull keeps their number.  A fill goes to [error] exactly when the
    source's slot is taken, a drain exactly when the sink's slot is
    empty, and a push or a pull never does. *)
Theorem transitions_conserve_items :
  forall (en : enumerator) (s nx : state_t en) (e : PortEvent.t),
    slot_state s = true ->
    cell (transition_table en) s e = Some nx ->
    match e with
    | PortEvent.source_fill =>
        if occupied s (source_slot en) then nx = st_error en
        else slot_state nx = true /\ items nx = items s + 1 /\
             occupied nx (source_slot en) = true
    | PortEvent.sink_drain =>
        if occupied s sink_slot
        then slot_state nx = true /\ items nx + 1 = items s /\
             occupied nx sink_slot = false
        else nx = st_error en
    | PortEvent.source_push | PortEvent.sink_pull =>
        slot_state nx = true /\ items nx = items s
    | PortEvent.shutdown => nx = st_error en
    end.
Proof.
  intros en s nx e Hs Hc.
  destruct en; by_cases_state s; try discriminate Hs; destruct e;
    cbn in Hc; injection Hc as <-; cbn; auto.
Qed.

Lemma transitions_conserve_items_witness :
  slot_state (en := three_stage) PortState3.st_101 = true /\
  items (en := three_stage) PortState3.st_011
    = items (en := three_stage) PortState3.st_101.
Proof.
  split; [reflexivity |].
  apply (transitions_conserve_items three_stage PortState3.st_101
           PortState3.st_011 PortEvent.source_push); reflexivity.
Defined.

(** X4. The tables agree with the adjustment made after a move: wherever
    the exit action is a move, the tabulated successor is what
    [state_after_move] makes of the current state, one of the collapsed
    targets, and the entry table holds the same move at the current
    state; and the entry action found at a tabulated successor is never
    a move. *)
Theorem moves_agree_with_table :
  forall (en : enumerator) (s nx : state_t en) (e : PortEvent.t)
         (xa ea : PortAction.t),
    cell (transition_table en) s e = Some nx ->
    cell (exit_table en) s e = Some xa ->
    cell (entry_table en) nx e = Some ea ->
    is_move ea = false /\
    (is_move xa = true ->
     nx = state_after_move en s /\ collapsed nx /\
     cell (entry_table en) s e = Some xa).
Proof.
  intros en s nx e xa ea Hn Hx He.
  destruct en; by_cases_state s; destruct e;
    cbn in Hn; injection Hn as <-;
    cbn in Hx; injection Hx as <-;
    cbn in He; injection He as <-;
    (split; [reflexivity | intros Hm; try discriminate Hm]);
    cbn; auto.
Qed.

Lemma moves_agree_with_table_witness :
  is_move PortAction.none = false /\
  (is_move PortAction.source_move = true ->
   PortState3.st_011 = state_after_move three_stage PortState3.st_110 /\
   collapsed (en := three_stage) PortState3.st_011 /\
   cell (en := three_stage) (entry_table three_stage) PortState3.st_110
        PortEvent.source_push = Some PortAction.source_move).
Proof.
  apply (moves_agree_with_table three_stage PortState3.st_110
           PortState3.st_011 PortEvent.source_push
           PortAction.source_move PortAction.none); reflexivity.
Defined.

(** X5. A wait is an exit action only, and a self-loop.  In a slot state
    the exit action is [source_wait] exactly when the event is a push and
    every slot is taken, and [sink_wait] exactly when the event is a pull
    and every slot is empty; the rows of [error] and [done] hold no wait;
    the successor of a waiting state is the state itself; and no entry
    action is a wait. *)
Theorem waits_are_self_loops :
  forall (en : enumerator) (s : state_t en) (e : PortEvent.t)
         (xa ea : PortAction.t),
    cell (exit_table en) s e = Some xa ->
    cell (entry_table en) s e = Some ea ->
    is_wait ea = false /\
    (is_wait xa = true -> cell (transition_table en) s e = Some s) /\
    (slot_state s = true ->
     (xa = PortAction.source_wait <->
      e = PortEvent.source_push /\ items s = num_stages_v en) /\
     (xa = PortAction.sink_wait <->
      e = PortEvent.sink_pull /\ items s = 0)) /\
    (slot_state s = false -> is_wait xa = false).
Proof.
  intros en s e xa ea Hx He.
  destruct en; by_cases_state s; destruct e;
    cbn in Hx; injection Hx as <-;
    cbn in He; injection He as <-;
    (split; [reflexivity |]);
    (split; [intros Hm; try discriminate Hm; reflexivity |]);
    (split; [intros Hs; try discriminate Hs | intros Hs; try discriminate Hs;
                                             reflexivity]);
    cbn; (split; split; intros H; try discriminate H;
          try (match type of H with
               | _ /\ _ => destruct H as [H1 H2];
                            (discriminate H1 || discriminate H2)
               end);
          try (split; reflexivity); try reflexivity).
Qed.

Lemma waits_are_self_loops_witness :
  PortAction.sink_wait = PortAction.sink_wait <->
  PortEvent.sink_pull = PortEvent.sink_pull /\
  items (en := two_stage) PortState2.st_00 = 0.
Proof.
  apply (proj2 (proj1 (proj2 (proj2
           (waits_are_self_loops two_stage PortState2.st_00
              PortEvent.sink_pull PortAction.sink_wait PortAction.none
              eq_refl eq_refl))) eq_refl)).
Defined.

(** * Further properties of the driver *)

(** X6. [str] of a three-stage state has no defined value for any state,
    so in the three-stage machine every call of [event] that has a trace
    line to write (a message was given, or debugging is enabled) has no
    defined outcome, whatever the policy and the event. *)
Theorem three_stage_traced_call_undefined :
  (forall s : state_t three_stage, str_state s = None) /\
  (forall (PS : Type) (P : Policy three_stage PS) (ev : PortEvent.t)
          (msg : string) (w : fsm three_stage PS),
      (nonempty msg || debug_ w) = true ->
      event P ev msg w = Undefined).
Proof.
  split; [exact str_state_three |].
  intros PS P ev msg w H. destruct w as [s n d c o p].
  by_cases_state s; destruct ev, msg, d; try discriminate H;
    run_driver; texts; reflexivity.
Qed.

Lemma three_stage_traced_call_undefined_witness :
  event pass_through PortEvent.source_fill "fill"
    (PortFiniteStateMachine three_stage unit PortState3.st_000 0%Z [] tt)
  = Undefined.
Proof.
  apply (proj2 three_stage_traced_call_undefined). reflexivity.
Defined.

(** X7. In the two-stage machine [error] is absorbing under any policy:
    a call made with [state_] at [error] comes back with [state_] at
    [error], and runs no callback (its outcome is that of the
    pass-through policy, and the policy's members are as they were). *)
Theorem two_stage_error_is_absorbing :
  forall (PS : Type) (P : Policy two_stage PS) (ev : PortEvent.t)
         (msg : string) (w : fsm two_stage PS),
    state w = PortState2.error ->
    event P ev msg w = event pass_through ev msg w /\
    exists w', event P ev msg w = Continue tt w' /\
               state w' = PortState2.error /\
               policy_members w' = policy_members w.
Proof.
  intros PS P ev msg w H. destruct w as [s n d c o p].
  unfold state in H. cbn in H. subst s.
  destruct ev, msg, d; run_driver; texts;
    (split; [reflexivity | eexists; repeat split]).
Qed.

Lemma two_stage_error_is_absorbing_witness :
  exists w',
    event recorder PortEvent.source_fill ""
      (Fsm (en := two_stage) PortState2.error PortState2.st_00 false 0%Z [] [])
      = Continue tt w' /\
    state w' = PortState2.error /\ policy_members w' = [].
Proof.
  apply (proj2 (two_stage_error_is_absorbing _ recorder
                  PortEvent.source_fill ""
                  (Fsm (en := two_stage) PortState2.error PortState2.st_00
                       false 0%Z [] []) eq_refl)).
Defined.

(** X8. What the callbacks see.  With a policy that only records its
    callbacks, a call for an event other than [shutdown] runs at most one
    callback before the state is committed and at most one after: the
    exit action's, which sees the old state and the successor as
    [next_state()], then the entry action's, which sees the successor as
    both.  This holds in the two-stage machine, and in the three-stage
    machine for a call that writes no line (no message, debugging off,
    successor not [error]). *)
Theorem callbacks_see_commit_order :
  forall (en : enumerator) (ev : PortEvent.t) (msg : string)
         (w : fsm en (list (observation en)))
         (nx : state_t en) (xa ea : PortAction.t),
    ev <> PortEvent.shutdown ->
    cell (transition_table en) (state w) ev = Some nx ->
    cell (exit_table en) (state w) ev = Some xa ->
    cell (entry_table en) nx ev = Some ea ->
    en = two_stage \/
    ((nonempty msg || debug_enabled w) = false /\ nx <> st_error en) ->
    exists w',
      event recorder ev msg w = Continue tt w' /\
      state w' = nx /\
      policy_members w' =
        (policy_members w ++ observed_call xa (state w) nx
                          ++ observed_call ea nx nx)%list.
Proof.
  intros en ev msg w nx xa ea Hne Hn Hx He Hq. destruct w as [s n d c o p].
  unfold state, debug_enabled in *. cbn [state_ debug_] in *.
  destruct en.
  - clear Hq.
    by_cases_state s; destruct ev; try contradiction;
      cbn in Hn; injection Hn as <-;
      cbn in Hx; injection Hx as <-;
      cbn in He; injection He as <-;
      destruct msg, d; run_driver; texts;
      (eexists; split; [reflexivity | split; [reflexivity |]]);
      cbn [policy_members observed_call]; rewrite ?app_nil_r; reflexivity.
  - destruct Hq as [Hq | [Hq Herr]]; [discriminate Hq |].
    destruct msg, d; try discriminate Hq. clear Hq.
    by_cases_state s; destruct ev; try contradiction;
      cbn in Hn; injection Hn as <-;
      try (exfalso; apply Herr; reflexivity);
      cbn in Hx; injection Hx as <-;
      cbn in He; injection He as <-;
      run_driver;
      (eexists; split; [reflexivity | split; [reflexivity |]]);
      cbn [policy_members observed_call]; rewrite ?app_nil_r; reflexivity.
Qed.

Lemma callbacks_see_commit_order_witness :
  exists w',
    event recorder PortEvent.sink_drain ""
      (Fsm (en := three_stage) PortState3.st_011 PortState3.st_000
           false 0%Z [] [])
      = Continue tt w' /\
    state w' = PortState3.st_010 /\
    policy_members w' =
      [Observed (en := three_stage) PortAction.notify_source
                PortState3.st_010 PortState3.st_010].
Proof.
  apply (callbacks_see_commit_order three_stage PortEvent.sink_drain ""
           (Fsm (en := three_stage) PortState3.st_011 PortState3.st_000
                false 0%Z [] [])
           PortState3.st_010 PortAction.none PortAction.notify_source).
  - discriminate.
  - reflexivity.
  - reflexivity.
  - reflexivity.
  - right. split; [reflexivity | discriminate].
Defined.

(** X9. A call with no message, on a machine whose debugging is off and
    with the pass-through policy, is silent: when the event is [shutdown]
    or its successor is not [error], a call that comes back has written
    nothing and has left the event counter alone. *)
Theorem quiet_call_is_silent :
  forall (en : enumerator) (PS : Type) (ev : PortEvent.t)
         (w w' : fsm en PS),
    debug_enabled w = false ->
    ev = PortEvent.shutdown \/
    cell (transition_table en) (state w) ev <> Some (st_error en) ->
    event pass_through ev "" w = Continue tt w' ->
    cout w' = cout w /\ event_counter w' = event_counter w.
Proof.
  intros en PS ev w w' Hd Hleg H. destruct w as [s n d c o p].
  unfold debug_enabled, state in *. cbn [debug_ state_] in *. subst d.
  destruct en; by_cases_state s; destruct ev;
    run_driver_in H; texts_in H; try discriminate H;
    injection H as <-;
    first [ split; reflexivity
          | exfalso; destruct Hleg as [Hl | Hl];
            [discriminate Hl | apply Hl; reflexivity] ].
Qed.

Lemma quiet_call_is_silent_witness :
  exists w',
    event pass_through PortEvent.source_fill ""
      (PortFiniteStateMachine three_stage unit PortState3.st_000 7%Z [] tt)
      = Continue tt w' /\
    cout w' = [] /\ event_counter w' = 7%Z.
Proof.
  eexists. split; [reflexivity |].
  apply (quiet_call_is_silent three_stage unit PortEvent.source_fill
           (PortFiniteStateMachine three_stage unit PortState3.st_000 7%Z [] tt)).
  - reflexivity.
  - right. discriminate.
  - reflexivity.
Defined.

(** X10. The trace of a two-stage call with the pass-through policy.  The
    lines it writes are appended to the output and numbered one after
    the other from the event counter, which ends just past the last
    number.  For an event other than [shutdown] there are four lines when
    a message is given or debugging is on (event start, before exit,
    before entry, after entry), one more for a successor [error], and,
    only when a message is given, the line after exit and one line before
    each callback; for [shutdown] there is the first line alone. *)
Theorem two_stage_trace_lines :
  forall (PS : Type) (ev : PortEvent.t) (msg : string)
         (w : fsm two_stage PS) (nx : state_t two_stage)
         (xa ea : PortAction.t),
    cell (transition_table two_stage) (state w) ev = Some nx ->
    cell (exit_table two_stage) (state w) ev = Some xa ->
    cell (entry_table two_stage) nx ev = Some ea ->
    exists w' lines,
      event pass_through ev msg w = Continue tt w' /\
      cout w' = (cout w ++ lines)%list /\
      stamped (event_counter w) lines (event_counter w') /\
      length lines =
        let verbose := nonempty msg || debug_enabled w in
        match ev with
        | PortEvent.shutdown => count verbose
        | _ =>
            4 * count verbose + count (state_eqb nx (st_error two_stage)) +
            count (nonempty msg) *
              (1 + count (negb (is_none xa)) + count (negb (is_none ea)))
        end.
Proof.
  intros PS ev msg w nx xa ea Hn Hx He. destruct w as [s n d c o p].
  unfold state, debug_enabled in *. cbn [state_ debug_] in *.
  by_cases_state s; destruct ev;
    cbn in Hn; injection Hn as <-;
    cbn in Hx; injection Hx as <-;
    cbn in He; injection He as <-;
    destruct msg, d; run_driver; texts;
    (do 2 eexists; split; [reflexivity |]);
    cbn [cout event_counter];
    (split;
     [ first [ symmetry; apply app_nil_r
             | rewrite <- ?app_assoc; reflexivity ]
     | split; [cbn; repeat split; reflexivity | reflexivity] ]).
Qed.

Lemma two_stage_trace_lines_witness :
  exists w' lines,
    event pass_through PortEvent.source_push "m"
      (Fsm (en := two_stage) PortState2.st_10 PortState2.st_00 false 5%Z [] tt)
      = Continue tt w' /\
    cout w' = ([] ++ lines)%list /\
    stamped 5%Z lines (event_counter w') /\
    length lines = 6.
Proof.
  apply (two_stage_trace_lines unit PortEvent.source_push "m"
           (Fsm (en := two_stage) PortState2.st_10 PortState2.st_00
                false 5%Z [] tt)
           PortState2.st_01 PortAction.source_move PortAction.none);
    reflexivity.
Defined.

(** X11. In the two-stage machine, with the pass-through policy, an event
    other than [shutdown] whose successor is [error] is reported and
    carried out: the call comes back, [state_] is [error], and the output
    holds, after a newline and stamped with the counter value of that
    moment, the line
    [" ERROR On event start: <msg> <event>: <state> (<exit action>) -> (none) error"]
    with the event, the state the call started in and the exit action
    spelled as their enumerators. *)
Theorem two_stage_error_transition_reported :
  forall (PS : Type) (ev : PortEvent.t) (msg : string)
         (w : fsm two_stage PS) (xa : PortAction.t),
    ev <> PortEvent.shutdown ->
    cell (transition_table two_stage) (state w) ev = Some PortState2.error ->
    cell (exit_table two_stage) (state w) ev = Some xa ->
    exists w',
      event pass_through ev msg w = Continue tt w' /\
      state w' = PortState2.error /\
      In (Line newline
               (if nonempty msg || debug_enabled w
                then wrap_int (event_counter w + 1)
                else event_counter w)
               (" ERROR On event start: " ++ msg ++ " " ++ event_name ev ++
                ": " ++ state2_name (state w) ++ " (" ++ action_name xa ++
                ") -> (" ++ "none" ++ ") " ++ "error"))
         (cout w').
Proof.
  intros PS ev msg w xa Hne Hn Hx. destruct w as [s n d c o p].
  unfold state, debug_enabled in *. cbn [state_ debug_] in *.
  by_cases_state s; destruct ev; try contradiction;
    cbn in Hn; try discriminate Hn; clear Hn;
    cbn in Hx; injection Hx as <-;
    destruct msg, d;
    cbv -[wrap_int Z.add String.append app In];
    (eexists; split; [reflexivity |]);
    (split; [reflexivity |]);
    rewrite !in_app_iff; cbn [In]; auto 8.
Qed.

Lemma two_stage_error_transition_reported_witness :
  exists w',
    event pass_through PortEvent.sink_drain ""
      (PortFiniteStateMachine two_stage unit PortState2.st_00 0%Z [] tt)
      = Continue tt w' /\
    state w' = PortState2.error /\
    In (Line newline 0%Z
             " ERROR On event start:  sink_drain: st_00 (none) -> (none) error")
       (cout w').
Proof.
  apply (two_stage_error_transition_reported unit PortEvent.sink_drain ""
           (PortFiniteStateMachine two_stage unit PortState2.st_00 0%Z [] tt)
           PortAction.none).
  - discriminate.
  - reflexivity.
  - reflexivity.
Defined.

(** X12. Where its trace line can be built, [shutdown] is neutral under
    any policy: the call comes back with [state()], the debug flag and
    the policy's members as they were, and its outcome does not depend on
    the policy (no callback runs). *)
Theorem shutdown_is_neutral :
  forall (en : enumerator) (PS : Type) (P Q : Policy en PS) (msg : string)
         (w : fsm en PS),
    traces_defined msg w ->
    event P PortEvent.shutdown msg w = event Q PortEvent.shutdown msg w /\
    exists w',
      event P PortEvent.shutdown msg w = Continue tt w' /\
      state w' = state w /\ debug_enabled w' = debug_enabled w /\
      policy_members w' = policy_members w.
Proof.
  intros en PS P Q msg w H.
  destruct (shutdown_returns P msg w H) as (w1 & E1 & Hs & _ & Hd & Hp).
  split.
  - clear E1 Hs Hd Hp w1. unfold traces_defined in H.
    destruct w as [s n d c o p].
    destruct en; by_cases_state s; destruct msg, d; cbn in H;
      try (destruct H as [H | H]; discriminate H);
      run_driver; texts; reflexivity.
  - exists w1. unfold state, debug_enabled. auto.
Qed.

Lemma shutdown_is_neutral_witness :
  exists w',
    event recorder PortEvent.shutdown "bye"
      (Fsm (en := two_stage) PortState2.st_10 PortState2.st_00 true 0%Z [] [])
      = Continue tt w' /\
    state w' = PortState2.st_10 /\ debug_enabled w' = true /\
    policy_members w' = [].
Proof.
  apply (proj2 (shutdown_is_neutral two_stage _ recorder pass_through "bye"
                  (Fsm (en := two_stage) PortState2.st_10 PortState2.st_00
                       true 0%Z [] []) (or_introl eq_refl))).
Defined.

(** X13. Every slot state can be reached: from a freshly constructed
    machine with the pass-through policy, calls without messages of
    events other than [shutdown] lead to any given slot state, in both
    machines. *)
Theorem every_slot_state_reachable :
  forall (en : enumerator) (PS : Type) (s ns : state_t en) (c : Z)
         (out : list line) (p : PS),
    slot_state s = true ->
    exists evs w',
      Forall (fun em => fst em <> PortEvent.shutdown /\ snd em = "") evs /\
      run pass_through evs (PortFiniteStateMachine en PS ns c out p)
        = Continue tt w' /\
      state w' = s.
Proof.
  intros en PS s ns c out p Hs.
  pose (quiet := map (fun e : PortEvent.t => (e, ""))).
  assert (Hq : forall es, ~ In PortEvent.shutdown es ->
            Forall (fun em => fst em <> PortEvent.shutdown /\ snd em = "")
                   (quiet es)).
  { intros es Hes. apply Forall_forall. intros [e m] Hin.
    apply in_map_iff in Hin. destruct Hin as (e' & Heq & Hin).
    injection Heq as <- <-. split; [| reflexivity].
    cbn. intros Habs. subst e'. contradiction. }
  assert (Hno : forall es,
            forallb (fun e => negb (PortEvent.eqb e PortEvent.shutdown)) es
              = true -> ~ In PortEvent.shutdown es).
  { intros es Hf Hin. rewrite forallb_forall in Hf.
    specialize (Hf _ Hin). discriminate Hf. }
  destruct en; by_cases_state s; try discriminate Hs.
  - exists (quiet []); eexists; split; [apply Hq, Hno | split]; reflexivity.
  - exists (quiet [PortEvent.source_fill; PortEvent.source_push]);
      eexists; split; [apply Hq, Hno | split]; reflexivity.
  - exists (quiet [PortEvent.source_fill]);
      eexists; split; [apply Hq, Hno | split]; reflexivity.
  - exists (quiet [PortEvent.source_fill; PortEvent.source_push;
                   PortEvent.source_fill]);
      eexists; split; [apply Hq, Hno | split]; reflexivity.
  - exists (quiet []); eexists; split; [apply Hq, Hno | split]; reflexivity.
  - exists (quiet [PortEvent.source_fill; PortEvent.source_push]);
      eexists; split; [apply Hq, Hno | split]; reflexivity.
  - exists (quiet [PortEvent.source_fill; PortEvent.source_push;
                   PortEvent.source_fill; PortEvent.source_push;
                   PortEvent.sink_drain]);
      eexists; split; [apply Hq, Hno | split]; reflexivity.
  - exists (quiet [PortEvent.source_fill; PortEvent.source_push;
                   PortEvent.source_fill; PortEvent.source_push]);
      eexists; split; [apply Hq, Hno | split]; reflexivity.
  - exists (quiet [PortEvent.source_fill]);
      eexists; split; [apply Hq, Hno | split]; reflexivity.
  - exists (quiet [PortEvent.source_fill; PortEvent.source_push;
                   PortEvent.source_fill]);
      eexists; split; [apply Hq, Hno | split]; reflexivity.
  - exists (quiet [PortEvent.source_fill; PortEvent.source_push;
                   PortEvent.source_fill; PortEvent.source_push;
                   PortEvent.sink_drain; PortEvent.source_fill]);
      eexists; split; [apply Hq, Hno | split]; reflexivity.
  - exists (quiet [PortEvent.source_fill; PortEvent.source_push;
                   PortEvent.source_fill; PortEvent.source_push;
                   PortEvent.source_fill]);
      eexists; split; [apply Hq, Hno | split]; reflexivity.
Qed.

Lemma every_slot_state_reachable_witness :
  exists evs w',
    Forall (fun em => fst em <> PortEvent.shutdown /\ snd em = "") evs /\
    run pass_through evs
        (PortFiniteStateMachine three_stage unit PortState3.st_000 0%Z [] tt)
      = Continue tt w' /\
    state w' = PortState3.st_110.
Proof.
  apply (every_slot_state_reachable three_stage unit PortState3.st_110
           PortState3.st_000 0%Z [] tt).
  reflexivity.
Defined.
